(** * mock-driver: endpoint resolution, listeners and the life cycle of [main]

    A shallow embedding of [cmd/mock-driver/main.go] and the properties of
    its specification.

    Go strings are byte strings: a [string] holds one [ascii] per byte.  The
    functions of the Go standard library that [parseEndpoint] calls
    ([strings], [unicode/utf8], [unicode]) are defined here as the library
    defines them.  Everything outside the process (the operating system, the
    YAML decoder, the servers of package [driver], the signals) is reached
    through the interface [World]; the theorems about [listen] and [main]
    hold for every instance of it.  The program runs in a monad that carries
    the state of the world, the deferred calls of the running function and
    the trace of what the program did; a run ends by [os.Exit], by the
    return of [main], or never (a wait for a signal that does not come).
    [Sim] is one instance of [World], a small simulated system on which the
    scenarios of the specification are run. *)

From Stdlib Require Import String Ascii List NArith ZArith Bool Arith Lia Permutation.
Import ListNotations.

Local Open Scope list_scope.
Local Open Scope string_scope.

(** ** Go strings *)

Module GoStrings.

Definition byte (c : ascii) : N := N_of_ascii c.

(** [byte(n)]: conversion of an integer to a byte keeps the low 8 bits. *)
Definition to_byte (n : N) : ascii := ascii_of_N (n mod 256).

(** [s[m:]] *)
Fixpoint slice_from (m : nat) (s : string) : string :=
  match m, s with
  | O, _ => s
  | S m', String _ s' => slice_from m' s'
  | S _, EmptyString => EmptyString
  end.

(** [s[:m]] *)
Fixpoint slice_to (m : nat) (s : string) : string :=
  match m, s with
  | O, _ => EmptyString
  | S m', String c s' => String c (slice_to m' s')
  | S _, EmptyString => EmptyString
  end.

(** [strings.HasPrefix(s, prefix)] *)
Fixpoint HasPrefix (s prefix : string) : bool :=
  match prefix, s with
  | EmptyString, _ => true
  | String p prefix', String c s' => Ascii.eqb c p && HasPrefix s' prefix'
  | String _ _, EmptyString => false
  end.

(** [strings.Index(s, substr)]; [None] stands for the result [-1]. *)
Fixpoint Index (s substr : string) : option nat :=
  if HasPrefix s substr then Some O
  else match s with
       | EmptyString => None
       | String _ s' => option_map S (Index s' substr)
       end.

(** [strings.SplitN(s, sep, n)] for a non-empty [sep] and [n > 0]: at most
    [n] pieces, the last one holding the unsplit remainder. *)
Fixpoint SplitN (s sep : string) (n : nat) : list string :=
  match n with
  | O => []
  | S O => [s]
  | S n' =>
      match Index s sep with
      | None => [s]
      | Some m => slice_to m s :: SplitN (slice_from (m + String.length sep) s) sep n'
      end
  end.

(** *** UTF-8, as in [unicode/utf8] *)

Definition RuneError : N := 0xFFFD.
Definition RuneSelf : N := 0x80.
Definition MaxRune : N := 0x10FFFF.
Definition MaxASCII : N := 0x7F.

(** The table [first] of [unicode/utf8]: what the first byte of a sequence
    announces.  [first_as]: an ASCII byte; [first_xx]: not a legal first
    byte; [first_sz size lo hi]: a sequence of [size] bytes whose second
    byte lies in [lo..hi]. *)
Inductive first_info : Type :=
| first_as
| first_xx
| first_sz (size : nat) (lo hi : N).

Definition first (b : N) : first_info :=
  if (b <? 0x80)%N then first_as
  else if (b <? 0xC2)%N then first_xx
  else if (b <? 0xE0)%N then first_sz 2 0x80 0xBF
  else if (b =? 0xE0)%N then first_sz 3 0xA0 0xBF
  else if (b <? 0xED)%N then first_sz 3 0x80 0xBF
  else if (b =? 0xED)%N then first_sz 3 0x80 0x9F
  else if (b <? 0xF0)%N then first_sz 3 0x80 0xBF
  else if (b =? 0xF0)%N then first_sz 4 0x90 0xBF
  else if (b <? 0xF4)%N then first_sz 4 0x80 0xBF
  else if (b =? 0xF4)%N then first_sz 4 0x80 0x8F
  else first_xx.

Definition locb : N := 0x80.
Definition hicb : N := 0xBF.
Definition maskx : N := 0x3F.
Definition mask2 : N := 0x1F.
Definition mask3 : N := 0x0F.
Definition mask4 : N := 0x07.

Definition outside (lo hi b : N) : bool := (b <? lo)%N || (hi <? b)%N.

(** [utf8.DecodeRuneInString(s)]: the first rune of [s] and its width in
    bytes; [(RuneError, 1)] for a byte that starts no legal sequence. *)
Definition DecodeRuneInString (s : string) : N * nat :=
  match s with
  | EmptyString => (RuneError, 0)
  | String c0 t0 =>
      let s0 := byte c0 in
      match first s0 with
      | first_as => (s0, 1)
      | first_xx => (RuneError, 1)
      | first_sz sz lo hi =>
          match t0 with
          | EmptyString => (RuneError, 1)
          | String c1 t1 =>
              let s1 := byte c1 in
              if outside lo hi s1 then (RuneError, 1)
              else if (sz <=? 2)%nat then
                (N.lor (N.shiftl (N.land s0 mask2) 6) (N.land s1 maskx), 2)
              else
                match t1 with
                | EmptyString => (RuneError, 1)
                | String c2 t2 =>
                    let s2 := byte c2 in
                    if outside locb hicb s2 then (RuneError, 1)
                    else if (sz <=? 3)%nat then
                      (N.lor (N.lor (N.shiftl (N.land s0 mask3) 12)
                                    (N.shiftl (N.land s1 maskx) 6))
                             (N.land s2 maskx), 3)
                    else
                      match t2 with
                      | EmptyString => (RuneError, 1)
                      | String c3 _ =>
                          let s3 := byte c3 in
                          if outside locb hicb s3 then (RuneError, 1)
                          else
                            (N.lor (N.lor (N.lor
                               (N.shiftl (N.land s0 mask4) 18)
                               (N.shiftl (N.land s1 maskx) 12))
                               (N.shiftl (N.land s2 maskx) 6))
                               (N.land s3 maskx), 4)
                      end
                end
          end
      end
  end.

Definition t2 : N := 0xC0.
Definition t3 : N := 0xE0.
Definition t4 : N := 0xF0.
Definition tx : N := 0x80.

Definition encode3 (r : N) : string :=
  String (to_byte (N.lor t3 (N.shiftr r 12)))
    (String (to_byte (N.lor tx (N.land (N.shiftr r 6) maskx)))
       (String (to_byte (N.lor tx (N.land r maskx))) EmptyString)).

(** [utf8.AppendRune(nil, r)]: the UTF-8 encoding of [r]; a surrogate or a
    value above [MaxRune] is encoded as [RuneError]. *)
Definition EncodeRune (r : N) : string :=
  if (r <=? 0x7F)%N then String (to_byte r) EmptyString
  else if (r <=? 0x7FF)%N then
    String (to_byte (N.lor t2 (N.shiftr r 6)))
      (String (to_byte (N.lor tx (N.land r maskx))) EmptyString)
  else if (MaxRune <? r)%N || ((0xD800 <=? r)%N && (r <=? 0xDFFF)%N) then
    encode3 RuneError
  else if (r <=? 0xFFFF)%N then encode3 r
  else
    String (to_byte (N.lor t4 (N.shiftr r 18)))
      (String (to_byte (N.lor tx (N.land (N.shiftr r 12) maskx)))
         (String (to_byte (N.lor tx (N.land (N.shiftr r 6) maskx)))
            (String (to_byte (N.lor tx (N.land r maskx))) EmptyString))).

(** [strings.Map(mapping, s)] for a mapping that drops no rune: every rune
    of [s], read as [range s] reads it, is replaced by the encoding of its
    image.  [fuel] bounds the number of runes; [Map] gives one unit per
    byte, which is always enough. *)
Fixpoint Map_loop (fuel : nat) (mapping : N -> N) (s : string) : string :=
  match fuel with
  | O => EmptyString
  | S fuel' =>
      match s with
      | EmptyString => EmptyString
      | String _ _ =>
          let '(c, width) := DecodeRuneInString s in
          EncodeRune (mapping c) ++ Map_loop fuel' mapping (slice_from width s)
      end
  end.

Definition Map (mapping : N -> N) (s : string) : string :=
  Map_loop (String.length s) mapping s.

(** *** Lower case, as in [unicode] and [strings] *)

Definition is_upper_ascii (b : N) : bool := (0x41 <=? b)%N && (b <=? 0x5A)%N.

(** [unicode.ToLower(r)].  The ASCII branch is the code of the library.
    Above [MaxASCII] the library consults the Unicode case tables, which
    are not part of this program: exactly two runes there have an ASCII
    lower case, U+0130 (lower case [i]) and U+212A (lower case [k]); every
    other rune maps to a rune above [MaxASCII], for which the rune itself
    stands in here.  [parseEndpoint] compares the lowered text with ASCII
    prefixes only, so it cannot tell the stand-in from the table entry. *)
Definition unicode_ToLower (r : N) : N :=
  if (r <=? MaxASCII)%N then
    if is_upper_ascii r then (r + 0x20)%N else r
  else if (r =? 0x130)%N then 0x69%N
  else if (r =? 0x212A)%N then 0x6B%N
  else r.

Fixpoint isASCII (s : string) : bool :=
  match s with
  | EmptyString => true
  | String c s' => (byte c <? RuneSelf)%N && isASCII s'
  end.

Fixpoint hasUpper (s : string) : bool :=
  match s with
  | EmptyString => false
  | String c s' => is_upper_ascii (byte c) || hasUpper s'
  end.

Fixpoint lower_bytes (s : string) : string :=
  match s with
  | EmptyString => EmptyString
  | String c s' =>
      String (if is_upper_ascii (byte c) then to_byte (byte c + 0x20) else c)
             (lower_bytes s')
  end.

(** [strings.ToLower(s)]: a string of ASCII bytes is lowered byte by byte
    (and returned as it is when it has no upper-case letter); any other
    string goes through [Map] with [unicode.ToLower]. *)
Definition ToLower (s : string) : string :=
  if isASCII s then
    if hasUpper s then lower_bytes s else s
  else Map unicode_ToLower s.

End GoStrings.

Import GoStrings.

(** ** Values shared by the program and its environment *)

(** A Go [error].  [external_error text not_exist] is an error made outside
    this program (by [os], [net], [yaml] or the [driver] package): its text,
    and whether [os.IsNotExist] recognises it.  [Errorf format operands] is
    the value of [fmt.Errorf(format, operands...)], kept with its operands. *)
Inductive error : Type :=
| external_error (text : string) (not_exist : bool)
| Errorf (format : string) (operands : list operand)
with operand : Type :=
| a_string (s : string)
| an_error (e : error).

(** [os.IsNotExist(err)]: looks at errors of the operating system only; an
    error built by [fmt.Errorf] is never one of them. *)
Definition IsNotExist (err : error) : bool :=
  match err with
  | external_error _ not_exist => not_exist
  | Errorf _ _ => false
  end.

(** A [net.Listener], known by the network and the address given to
    [net.Listen]. *)
Record Listener : Type := { network : string; address : string }.

(** An open [*os.File], known by the name it was opened with. *)
Record File : Type := { file_name : string }.

Inductive Signal : Type :=
| SIGHUP | SIGINT | SIGQUIT | SIGTERM | SIGUSR1 | SIGUSR2 | SIGPIPE.

Definition Signal_eqb (a b : Signal) : bool :=
  match a, b with
  | SIGHUP, SIGHUP | SIGINT, SIGINT | SIGQUIT, SIGQUIT | SIGTERM, SIGTERM
  | SIGUSR1, SIGUSR1 | SIGUSR2, SIGUSR2 | SIGPIPE, SIGPIPE => true
  | _, _ => false
  end.

(** The two function literals of [listen]: [func() {}] and
    [func() { os.Remove(addr) }], the latter with the [addr] it captured. *)
Inductive Func : Type :=
| func_nop
| func_Remove (addr : string).

(** ** Endpoint resolution *)

(** [parseEndpoint(ep)].  The result is [None] when the Go code would stop
    with a run-time panic (an index out of range); [parseEndpoint_total]
    shows that this never happens. *)
Definition parseEndpoint (ep : string) : option (string * string * option error) :=
  if HasPrefix (ToLower ep) "unix://" || HasPrefix (ToLower ep) "tcp://" then
    let s := SplitN ep "://" 2 in
    match nth_error s 1 with
    | None => None
    | Some s1 =>
        if negb (s1 =? "") then
          match nth_error s 0 with
          | None => None
          | Some s0 => Some (s0, s1, None)
          end
        else Some ("", "", Some (Errorf "Invalid endpoint: %v" [a_string ep]))
    end
  else
    (* Assume everything else is a file path for a Unix Domain Socket. *)
    Some ("unix", ep, None).

(** ** The program and its environment *)

Inductive Role : Type := Identity | Controller | Node.

Inductive Severity : Type :=
| INFO (v : nat)   (* [klog.Info], [klog.Infof] (v = 0) and [klog.V(v).Infof] *)
| ERROR            (* [klog.Errorf] *)
| FATAL.           (* [klog.Exitf] *)

Section Program.

(** [service.Hooks], the decoded hooks document. *)
Variable Hooks : Type.

(** The command-line flags after [flag.Parse()]: [disable-attach], [name],
    [attach-limit], [node-expand-required], [enable-topology],
    [disable-controller-expansion], [disable-online-expansion],
    [permissive-target-path] and [hooks-file]. *)
Record Flags : Type := {
  disable_attach : bool;
  name : string;
  attach_limit : Z;
  node_expand_required : bool;
  enable_topology : bool;
  disable_controller_expansion : bool;
  disable_online_expansion : bool;
  permissive_target_path : bool;
  hooks_file : string
}.

(** [service.Config], with the fields that [main] sets. *)
Record Config : Type := {
  DisableAttach : bool;
  DriverName : string;
  AttachLimit : Z;
  NodeExpansionRequired : bool;
  EnableTopology : bool;
  DisableControllerExpansion : bool;
  DisableOnlineExpansion : bool;
  PermissiveTargetPath : bool;
  ExecHooks : option Hooks
}.

Definition set_ExecHooks (config : Config) (h : option Hooks) : Config :=
  {| DisableAttach := DisableAttach config;
     DriverName := DriverName config;
     AttachLimit := AttachLimit config;
     NodeExpansionRequired := NodeExpansionRequired config;
     EnableTopology := EnableTopology config;
     DisableControllerExpansion := DisableControllerExpansion config;
     DisableOnlineExpansion := DisableOnlineExpansion config;
     PermissiveTargetPath := PermissiveTargetPath config;
     ExecHooks := h |}.

(** Modelled from the spec: the packages [mock/service] and [driver] are
    not among the sources at hand.  The Service Instance is "constructed
    once from Configuration" and construction never fails: [service.New]
    keeps the configuration. *)
Record Service : Type := { service_config : Config }.

Definition service_New (config : Config) : Service :=
  {| service_config := config |}.

(** Modelled from the spec: the three server structs of package [driver],
    with the fields that [main] fills in. *)
Inductive Servers : Type :=
| CSIDriverServers (controller identity node : Service)
| CSIDriverControllerServer (controller identity : Service)
| CSIDriverNodeServer (node identity : Service).

(** Modelled from the spec: a Server Group Member, as [NewCSIDriver],
    [NewCSIDriverController] and [NewCSIDriverNode] build it: its servers,
    and whether [SetDefaultCreds] has been called on it. *)
Record Driver : Type := { servers : Servers; creds : bool }.

Definition NewCSIDriver (s : Servers) : Driver := {| servers := s; creds := false |}.
Definition NewCSIDriverController (s : Servers) : Driver := {| servers := s; creds := false |}.
Definition NewCSIDriverNode (s : Servers) : Driver := {| servers := s; creds := false |}.
Definition SetDefaultCreds (d : Driver) : Driver := {| servers := servers d; creds := true |}.

(** Modelled from the spec: the roles a member serves are the ones its
    server struct has a field for. *)
Definition roles (d : Driver) : list Role :=
  match servers d with
  | CSIDriverServers _ _ _ => [Identity; Controller; Node]
  | CSIDriverControllerServer _ _ => [Identity; Controller]
  | CSIDriverNodeServer _ _ => [Identity; Node]
  end.

(** A deferred call: [defer cleanup()] in [main], [defer fr.Close()] in
    [parseHooksFile]. *)
Inductive Deferred : Type :=
| defer_call (f : Func)
| defer_Close (fr : File).

(** What the program does, in the order in which it does it. *)
Inductive Event : Type :=
| ev_klog (sev : Severity) (format : string) (operands : list operand)
| ev_service_New (config : Config)
| ev_NewDriver (d : Driver)
| ev_SetDefaultCreds (d : Driver)
| ev_Open (name : string) (err : option error)
| ev_ReadAll (fr : File) (err : option error)
| ev_Close (fr : File)
| ev_Remove (name : string) (err : option error)
| ev_Listen (network address : string) (err : option error)
| ev_listen (endpoint : string) (l : option Listener) (cleanup : option Func)
            (err : option error)                (* [listen] returns *)
| ev_Start (d : Driver) (l : Listener) (err : option error)
| ev_Notify (sigs : list Signal)
| ev_receive (sig : option Signal)      (* [<-sigc]; [None]: nothing ever comes *)
| ev_Stop (d : Driver)
| ev_deferred (d : Deferred).                   (* a deferred call is run *)

(** The environment of the process: the operating system, the YAML decoder
    and the servers of package [driver].  [W] is its state. *)
Class World (W : Type) : Type := {
  (** [os.Getenv(key)]: the empty string for a variable that is not set. *)
  Getenv : string -> W -> string;
  (** [os.Remove(name)] *)
  Remove : string -> W -> option error * W;
  (** [net.Listen(network, address)] *)
  Listen : string -> string -> W -> option error * W;
  (** [os.Open(name)] *)
  Open : string -> W -> option error * W;
  (** [ioutil.ReadAll(fr)] *)
  ReadAll : File -> W -> (string + error) * W;
  (** [fr.Close()] *)
  Close : File -> W -> W;
  (** [yaml.UnmarshalStrict(bytes, &hooks)] *)
  UnmarshalStrict : string -> Hooks + error;
  (** [d.Start(l)] *)
  Start : Driver -> Listener -> W -> option error * W;
  (** [d.Stop()] *)
  Stop : Driver -> W -> W;
  (** [<-sigc] on a channel that [signal.Notify(sigc, sigs...)] feeds: the
      first of the signals [sigs] sent to the process, [None] when none of
      them ever arrives and the receive blocks for ever. *)
  Receive : list Signal -> W -> option Signal * W
}.

Context {W : Type} {world_ops : World W}.

(** *** The state of the process and its monad *)

Record Proc : Type := {
  world : W;
  deferred : list Deferred;    (* deferred calls of the running function, last first *)
  trace : list Event
}.

Inductive Outcome (A : Type) : Type :=
| Done (a : A)        (* the code ran to its end *)
| Exit (code : Z)     (* [os.Exit(code)]: the process is gone at once *)
| Blocked             (* the process waits for ever *)
| Panic.              (* a run-time panic *)
Arguments Done {A} a.
Arguments Exit {A} code.
Arguments Blocked {A}.
Arguments Panic {A}.

Definition M (A : Type) : Type := Proc -> Outcome A * Proc.

Definition ret {A : Type} (a : A) : M A := fun p => (Done a, p).

Definition bind {A B : Type} (m : M A) (k : A -> M B) : M B :=
  fun p =>
    match m p with
    | (Done a, p') => k a p'
    | (Exit code, p') => (Exit code, p')
    | (Blocked, p') => (Blocked, p')
    | (Panic, p') => (Panic, p')
    end.

Notation "x <- m ;; k" := (bind m (fun x => k))
  (at level 61, m at next level, right associativity).
Notation "m ;;; k" := (bind m (fun _ => k))
  (at level 61, right associativity).

Definition emit (e : Event) : M unit :=
  fun p => (Done tt, {| world := world p; deferred := deferred p;
                        trace := (trace p ++ [e])%list |}).

(** A call into the environment: the world moves on and the call is
    written to the trace with its result. *)
Definition call {A : Type} (op : W -> A * W) (ev : A -> Event) : M A :=
  fun p =>
    let '(a, w') := op (world p) in
    (Done a, {| world := w'; deferred := deferred p; trace := (trace p ++ [ev a])%list |}).

Definition os_Exit {A : Type} (code : Z) : M A := fun p => (Exit code, p).
Definition block {A : Type} : M A := fun p => (Blocked, p).
Definition panic {A : Type} : M A := fun p => (Panic, p).

Definition os_Getenv (key : string) : M string :=
  fun p => (Done (Getenv key (world p)), p).

Definition os_Remove (name : string) : M (option error) :=
  call (Remove name) (ev_Remove name).

Definition net_Listen (network address : string) : M (option Listener * option error) :=
  err <- call (Listen network address) (ev_Listen network address) ;;
  match err with
  | None => ret (Some {| network := network; address := address |}, None)
  | Some e => ret (None, Some e)
  end.

Definition os_Open (name : string) : M (option File * option error) :=
  err <- call (Open name) (ev_Open name) ;;
  match err with
  | None => ret (Some {| file_name := name |}, None)
  | Some e => ret (None, Some e)
  end.

Definition err_of {A : Type} (r : A + error) : option error :=
  match r with inl _ => None | inr e => Some e end.

Definition ioutil_ReadAll (fr : File) : M (string + error) :=
  call (ReadAll fr) (fun r => ev_ReadAll fr (err_of r)).

Definition File_Close (fr : File) : M unit :=
  call (fun w => (tt, Close fr w)) (fun _ => ev_Close fr).

Definition Driver_Start (d : Driver) (l : Listener) : M (option error) :=
  call (Start d l) (ev_Start d l).

Definition Driver_Stop (d : Driver) : M unit :=
  call (fun w => (tt, Stop d w)) (fun _ => ev_Stop d).

Definition klog (sev : Severity) (format : string) (operands : list operand) : M unit :=
  emit (ev_klog sev format operands).

(** [klog.Exitf]: the message is logged and the process exits with
    status 1 through [os.Exit], which runs no deferred call. *)
Definition klog_Exitf {A : Type} (format : string) (operands : list operand) : M A :=
  klog FATAL format operands ;;; os_Exit 1.

(** *** Functions, with their deferred calls *)

Definition call_Func (f : Func) : M unit :=
  match f with
  | func_nop => ret tt
  | func_Remove addr => _ <- os_Remove addr ;; ret tt
  end.

Definition run_Deferred (d : Deferred) : M unit :=
  emit (ev_deferred d) ;;;
  match d with
  | defer_call f => call_Func f
  | defer_Close fr => File_Close fr
  end.

Fixpoint run_all (ds : list Deferred) : M unit :=
  match ds with
  | [] => ret tt
  | d :: ds' => run_Deferred d ;;; run_all ds'
  end.

Definition set_deferred (ds : list Deferred) (p : Proc) : Proc :=
  {| world := world p; deferred := ds; trace := trace p |}.

(** [defer]: the call is pushed on the list of the running function. *)
Definition defer (d : Deferred) : M unit :=
  fun p => (Done tt, set_deferred (d :: deferred p) p).

(** A function body with its own list of deferred calls.  When the body
    runs to its end the deferred calls are run, the last one first, before
    the function returns; when the body leaves through [os.Exit] they are
    not run. *)
Definition func {A : Type} (body : M A) : M A :=
  fun p =>
    match body (set_deferred [] p) with
    | (Done a, p') =>
        match run_all (deferred p') (set_deferred [] p') with
        | (Done _, p'') => (Done a, set_deferred (deferred p) p'')
        | (Exit code, p'') => (Exit code, p'')
        | (Blocked, p'') => (Blocked, p'')
        | (Panic, p'') => (Panic, p'')
        end
    | other => other
    end.

Notation "' pat <- m ;; k" := (bind m (fun x => match x with pat => k end))
  (at level 61, pat pattern, m at next level, right associativity).

(** A value that the Go code uses without a nil check: using nil panics. *)
Definition deref {A : Type} (o : option A) : M A :=
  match o with
  | Some a => ret a
  | None => panic
  end.

(** *** [listen] *)

(** The body of [listen].  [step] is the statement [if proto == "unix"]:
    it either returns from the function (left) or goes on with the address
    and the cleanup it has set (right). *)
Definition listen_body (endpoint : string)
  : M (option Listener * option Func * option error) :=
  match parseEndpoint endpoint with
  | None => panic
  | Some (_, _, Some err) => ret (None, None, Some err)
  | Some (proto, addr, None) =>
      let cleanup := func_nop in
      step <- (if proto =? "unix" then
                 let addr := "/" ++ addr in
                 err <- os_Remove addr ;;
                 match err with
                 | Some err =>
                     if negb (IsNotExist err) then
                       ret (inl (Errorf "%s: %q" [a_string addr; an_error err]))
                     else ret (inr (addr, func_Remove addr))
                 | None => ret (inr (addr, func_Remove addr))
                 end
               else ret (inr (addr, cleanup))) ;;
      match step with
      | inl err => ret (None, None, Some err)
      | inr (addr, cleanup) =>
          ' (l, err) <- net_Listen proto addr ;;
          ret (l, Some cleanup, err)
      end
  end.

(** [listen(endpoint)]; what it returns is written to the trace. *)
Definition listen (endpoint : string)
  : M (option Listener * option Func * option error) :=
  ' (l, cleanup, err) <- listen_body endpoint ;;
  emit (ev_listen endpoint l cleanup err) ;;;
  ret (l, cleanup, err).

(** *** [parseHooksFile] *)

Definition parseHooksFile (file : string) : M (option Hooks * option error) :=
  func (
    ' (fr, err) <- os_Open file ;;
    match err with
    | Some err => ret (None, Some err)
    | None =>
        fr <- deref fr ;;
        defer (defer_Close fr) ;;;
        r <- ioutil_ReadAll fr ;;
        match r with
        | inr err => ret (None, Some err)
        | inl bytes =>
            match UnmarshalStrict bytes with
            | inr err => ret (None, Some err)
            | inl hooks =>
                klog (INFO 2) "Hooks file %s loaded\n" [a_string file] ;;;
                ret (Some hooks, None)
            end
        end
    end).

(** *** [main] *)

Definition sigs : list Signal := [SIGTERM; SIGHUP; SIGINT; SIGQUIT].

(** [signal.Notify(sigc, sigs...)] and [<-sigc]. *)
Definition wait_for_signal : M Signal :=
  emit (ev_Notify sigs) ;;;
  sig <- call (Receive sigs) ev_receive ;;
  match sig with
  | Some sig => ret sig
  | None => block
  end.

(** [if err != nil { klog.Exitf(format, operands..., err) }] *)
Definition exit_on (err : option error) (format : string) (operands : list operand)
  : M unit :=
  match err with
  | Some err => klog_Exitf format (operands ++ [an_error err])%list
  | None => ret tt
  end.

Definition config_of (flags : Flags) : Config :=
  {| DisableAttach := disable_attach flags;
     DriverName := name flags;
     AttachLimit := attach_limit flags;
     NodeExpansionRequired := node_expand_required flags;
     EnableTopology := enable_topology flags;
     DisableControllerExpansion := disable_controller_expansion flags;
     DisableOnlineExpansion := disable_online_expansion flags;
     PermissiveTargetPath := permissive_target_path flags;
     ExecHooks := None |}.

(** The statement [if hooksFile != "" { ... }] of [main]; its value is the
    configuration after it. *)
Definition load_hooks (config : Config) (hooksFile : string) : M Config :=
  if negb (hooksFile =? "") then
    ' (execHooks, err) <- parseHooksFile hooksFile ;;
    match err with
    | None => ret (set_ExecHooks config execHooks)
    | Some err =>
        klog ERROR "Failed to load hooks file %s: %v"
             [a_string hooksFile; an_error err] ;;;
        ret config
    end
  else ret config.

(** [len(setCreds) > 0 && setCreds == "true"] *)
Definition creds_enabled (setCreds : string) : bool :=
  (0 <? String.length setCreds)%nat && (setCreds =? "true").

(** The branch of [main] for [endpoint == controllerEndpoint]. *)
Definition main_combined (s : Service) (endpoint : string) : M unit :=
  let servers := CSIDriverServers s s s in
  let d := NewCSIDriver servers in
  emit (ev_NewDriver d) ;;;
  (* If creds is enabled, set the default creds. *)
  setCreds <- os_Getenv "CSI_ENABLE_CREDS" ;;
  d <- (if creds_enabled setCreds
        then emit (ev_SetDefaultCreds d) ;;; ret (SetDefaultCreds d)
        else ret d) ;;
  (* Listen *)
  ' (l, cleanup, err) <- listen endpoint ;;
  exit_on err "Error: Unable to listen on %s socket: %v\n" [a_string endpoint] ;;;
  cleanup <- deref cleanup ;;
  defer (defer_call cleanup) ;;;
  (* Start server *)
  l <- deref l ;;
  err <- Driver_Start d l ;;
  exit_on err "Error: Unable to start mock CSI server: %v\n" [] ;;;
  klog (INFO 0) "mock driver started" [] ;;;
  (* Wait for signal *)
  _ <- wait_for_signal ;;
  Driver_Stop d ;;;
  klog (INFO 0) "mock driver stopped" [].

(** The other branch of [main]. *)
Definition main_split (s : Service) (endpoint controllerEndpoint : string) : M unit :=
  let controllerServer := CSIDriverControllerServer s s in
  let dc := NewCSIDriverController controllerServer in
  emit (ev_NewDriver dc) ;;;
  let nodeServer := CSIDriverNodeServer s s in
  let dn := NewCSIDriverNode nodeServer in
  emit (ev_NewDriver dn) ;;;
  setCreds <- os_Getenv "CSI_ENABLE_CREDS" ;;
  ' (dc, dn) <- (if creds_enabled setCreds
                 then emit (ev_SetDefaultCreds dc) ;;;
                      emit (ev_SetDefaultCreds dn) ;;;
                      ret (SetDefaultCreds dc, SetDefaultCreds dn)
                 else ret (dc, dn)) ;;
  (* Listen controller. *)
  ' (l, cleanupController, err) <- listen controllerEndpoint ;;
  exit_on err "Error: Unable to listen on %s socket: %v\n" [a_string controllerEndpoint] ;;;
  cleanupController <- deref cleanupController ;;
  defer (defer_call cleanupController) ;;;
  (* Start controller server. *)
  l <- deref l ;;
  err <- Driver_Start dc l ;;
  exit_on err "Error: Unable to start mock CSI controller server: %v\n" [] ;;;
  klog (INFO 0) "mock controller driver started" [] ;;;
  (* Listen node. *)
  ' (l, cleanupNode, err) <- listen endpoint ;;
  exit_on err "Error: Unable to listen on %s socket: %v\n" [a_string endpoint] ;;;
  cleanupNode <- deref cleanupNode ;;
  defer (defer_call cleanupNode) ;;;
  (* Start node server. *)
  l <- deref l ;;
  err <- Driver_Start dn l ;;
  exit_on err "Error: Unable to start mock CSI node server: %v\n" [] ;;;
  klog (INFO 0) "mock node driver started" [] ;;;
  (* Wait for signal *)
  _ <- wait_for_signal ;;
  Driver_Stop dc ;;;
  Driver_Stop dn ;;;
  klog (INFO 0) "mock drivers stopped" [].

Definition main (flags : Flags) : M unit :=
  func (
    let config := config_of flags in
    let hooksFile := hooks_file flags in
    endpoint <- os_Getenv "CSI_ENDPOINT" ;;
    controllerEndpoint <- os_Getenv "CSI_CONTROLLER_ENDPOINT" ;;
    let controllerEndpoint :=
      if (String.length controllerEndpoint =? 0)%nat
      then endpoint   (* If empty, set to the common endpoint. *)
      else controllerEndpoint in
    config <- load_hooks config hooksFile ;;
    (* Create mock driver *)
    let s := service_New config in
    emit (ev_service_New config) ;;;
    if endpoint =? controllerEndpoint
    then main_combined s endpoint
    else main_split s endpoint controllerEndpoint).

(** A run of the program from the world [w]: the exit status is 0 when
    [main] returns. *)
Definition run (flags : Flags) (w : W) : Outcome unit * Proc :=
  match main flags {| world := w; deferred := []; trace := [] |} with
  | (Done _, p) => (Exit 0, p)
  | other => other
  end.

End Program.

Arguments Done {A} a.
Arguments Exit {A} code.
Arguments Blocked {A}.
Arguments Panic {A}.
Arguments service_config {Hooks} s.
Arguments set_ExecHooks {Hooks} config h.
Arguments CSIDriverServers {Hooks} controller identity node.
Arguments CSIDriverControllerServer {Hooks} controller identity.
Arguments CSIDriverNodeServer {Hooks} node identity.
Arguments servers {Hooks} d.
Arguments creds {Hooks} d.
Arguments roles {Hooks} d.
Arguments SetDefaultCreds {Hooks} d.
Arguments NewCSIDriver {Hooks} s.
Arguments NewCSIDriverController {Hooks} s.
Arguments NewCSIDriverNode {Hooks} s.
Arguments service_New {Hooks} config.
Arguments config_of {Hooks} flags.
Arguments ExecHooks {Hooks} c.
Arguments ev_klog {Hooks} sev format operands.
Arguments ev_service_New {Hooks} config.
Arguments ev_NewDriver {Hooks} d.
Arguments ev_SetDefaultCreds {Hooks} d.
Arguments ev_Open {Hooks} name err.
Arguments ev_ReadAll {Hooks} fr err.
Arguments ev_Close {Hooks} fr.
Arguments ev_Remove {Hooks} name err.
Arguments ev_Listen {Hooks} network address err.
Arguments ev_listen {Hooks} endpoint l cleanup err.
Arguments ev_Start {Hooks} d l err.
Arguments ev_Notify {Hooks} sigs.
Arguments ev_receive {Hooks} sig.
Arguments ev_Stop {Hooks} d.
Arguments ev_deferred {Hooks} d.
Arguments Getenv {Hooks W World} _ _.
Arguments Remove {Hooks W World} _ _.
Arguments Listen {Hooks W World} _ _ _.
Arguments Open {Hooks W World} _ _.
Arguments ReadAll {Hooks W World} _ _.
Arguments Close {Hooks W World} _ _.
Arguments UnmarshalStrict {Hooks W World} _.
Arguments Start {Hooks W World} _ _ _.
Arguments Stop {Hooks W World} _ _.
Arguments Receive {Hooks W World} _ _.
Arguments world {Hooks W} p.
Arguments ret {Hooks W A} a p.
Arguments bind {Hooks W A B} m k p.
Arguments emit {Hooks W} e p.
Arguments call {Hooks W A} op ev p.
Arguments os_Exit {Hooks W A} code p.
Arguments block {Hooks W A} p.
Arguments panic {Hooks W A} p.
Arguments os_Getenv {Hooks W world_ops} key p.
Arguments os_Remove {Hooks W world_ops} name.
Arguments net_Listen {Hooks W world_ops} network address.
Arguments os_Open {Hooks W world_ops} name.
Arguments ioutil_ReadAll {Hooks W world_ops} fr.
Arguments File_Close {Hooks W world_ops} fr.
Arguments Driver_Start {Hooks W world_ops} d l.
Arguments Driver_Stop {Hooks W world_ops} d.
Arguments klog {Hooks W} sev format operands.
Arguments klog_Exitf {Hooks W A} format operands.
Arguments call_Func {Hooks W world_ops} f.
Arguments run_Deferred {Hooks W world_ops} d.
Arguments run_all {Hooks W world_ops} ds.
Arguments set_deferred {Hooks W} ds p.
Arguments defer {Hooks W} d p.
Arguments func {Hooks W world_ops A} body p.
Arguments deref {Hooks W A} o.
Arguments wait_for_signal {Hooks W world_ops}.
Arguments exit_on {Hooks W} err format operands.
Arguments deferred {Hooks W} p.
Arguments trace {Hooks W} p.
Arguments listen_body {Hooks W world_ops} endpoint.
Arguments listen {Hooks W world_ops} endpoint.
Arguments parseHooksFile {Hooks W world_ops} file.
Arguments load_hooks {Hooks W world_ops} config hooksFile.
Arguments main_combined {Hooks W world_ops} s endpoint.
Arguments main_split {Hooks W world_ops} s endpoint controllerEndpoint.
Arguments main {Hooks W world_ops} flags.
Arguments run {Hooks W world_ops} flags w.

(** ** A simulated environment

    A small operating system to run the program in: environment variables,
    a file system with sockets and with paths that cannot be removed,
    network addresses, a stand-in for the YAML decoder, servers that fail to
    start on chosen addresses, and the signals that are sent to the
    process. *)

Module Sim.

Definition Hooks : Type := string.

Record world : Type := {
  env : list (string * string);        (* the environment variables that are set *)
  paths : list string;                 (* the paths that exist *)
  pinned : list string;                (* paths that [os.Remove] may not remove *)
  documents : list (string * string);  (* readable files and their content *)
  busy : list string;                  (* network addresses in use *)
  broken : list string;                (* addresses on which no server starts *)
  serving : list (Driver Hooks * Listener);
  signals : list Signal                (* signals sent to the process, in order *)
}.

Fixpoint lookup (key : string) (l : list (string * string)) : option string :=
  match l with
  | [] => None
  | (k, v) :: l' => if k =? key then Some v else lookup key l'
  end.

Definition mem (x : string) (l : list string) : bool :=
  existsb (String.eqb x) l.

Definition without (x : string) (l : list string) : list string :=
  filter (fun y => negb (y =? x)) l.

Definition getenv (key : string) (w : world) : string :=
  match lookup key (env w) with
  | Some v => v
  | None => ""
  end.

Definition set_paths (ps : list string) (w : world) : world :=
  {| env := env w; paths := ps; pinned := pinned w; documents := documents w;
     busy := busy w; broken := broken w; serving := serving w;
     signals := signals w |}.

Definition set_busy (b : list string) (w : world) : world :=
  {| env := env w; paths := paths w; pinned := pinned w; documents := documents w;
     busy := b; broken := broken w; serving := serving w;
     signals := signals w |}.

Definition set_serving (s : list (Driver Hooks * Listener)) (w : world) : world :=
  {| env := env w; paths := paths w; pinned := pinned w; documents := documents w;
     busy := busy w; broken := broken w; serving := s;
     signals := signals w |}.

Definition set_signals (s : list Signal) (w : world) : world :=
  {| env := env w; paths := paths w; pinned := pinned w; documents := documents w;
     busy := busy w; broken := broken w; serving := serving w;
     signals := s |}.

Definition remove (name : string) (w : world) : option error * world :=
  if negb (mem name (paths w)) then
    (Some (external_error ("remove " ++ name ++ ": no such file or directory") true), w)
  else if mem name (pinned w) then
    (Some (external_error ("remove " ++ name ++ ": operation not permitted") false), w)
  else (None, set_paths (without name (paths w)) w).

Definition listen (network address : string) (w : world) : option error * world :=
  if network =? "unix" then
    if mem address (paths w) then
      (Some (external_error ("listen unix " ++ address ++ ": bind: address already in use")
                            false), w)
    else (None, set_paths (address :: paths w) w)
  else if network =? "tcp" then
    if mem address (busy w) then
      (Some (external_error ("listen tcp " ++ address ++ ": bind: address already in use")
                            false), w)
    else (None, set_busy (address :: busy w) w)
  else
    (Some (external_error ("listen " ++ network ++ " " ++ address ++ ": unknown network "
                           ++ network) false), w).

Definition open (name : string) (w : world) : option error * world :=
  match lookup name (documents w) with
  | Some _ => (None, w)
  | None =>
      (Some (external_error ("open " ++ name ++ ": no such file or directory") true), w)
  end.

Definition read_all (fr : File) (w : world) : (string + error) * world :=
  match lookup (file_name fr) (documents w) with
  | Some text => (inl text, w)
  | None => (inr (external_error "read: bad file descriptor" false), w)
  end.

(** The stand-in for the decoder: a document is accepted when it holds a
    [key: value] pair, and is kept as it is. *)
Definition unmarshal (bytes : string) : Hooks + error :=
  match Index bytes ": " with
  | Some _ => inl bytes
  | None => inr (external_error "yaml: unmarshal errors" false)
  end.

Definition start (d : Driver Hooks) (l : Listener) (w : world) : option error * world :=
  if mem (address l) (broken w) then
    (Some (external_error "failed to serve" false), w)
  else (None, set_serving ((d, l) :: serving w) w).

(** Stopping a server closes its listener; closing a listener on a socket
    removes the socket file. *)
Definition same_member (d d' : Driver Hooks) : bool :=
  match servers d, servers d' with
  | CSIDriverServers _ _ _, CSIDriverServers _ _ _
  | CSIDriverControllerServer _ _, CSIDriverControllerServer _ _
  | CSIDriverNodeServer _ _, CSIDriverNodeServer _ _ => true
  | _, _ => false
  end.

Fixpoint release (stopped : Driver Hooks) (s : list (Driver Hooks * Listener)) (w : world)
  : world :=
  match s with
  | [] => set_serving [] w
  | (d, l) :: s' =>
      let w' := release stopped s' w in
      if same_member d stopped && (network l =? "unix")
      then set_paths (without (address l) (paths w')) w'
      else set_serving ((d, l) :: serving w') w'
  end.

Definition stop (d : Driver Hooks) (w : world) : world :=
  release d (serving w) w.

Fixpoint first_of (sigs incoming : list Signal) : option Signal * list Signal :=
  match incoming with
  | [] => (None, [])
  | sig :: rest =>
      if existsb (Signal_eqb sig) sigs then (Some sig, rest)
      else first_of sigs rest   (* not relayed to the channel *)
  end.

Definition receive (sigs : list Signal) (w : world) : option Signal * world :=
  let '(sig, rest) := first_of sigs (signals w) in
  (sig, set_signals rest w).

Definition sim : World Hooks world := {|
  Getenv := getenv;
  Remove := remove;
  Listen := listen;
  Open := open;
  ReadAll := read_all;
  Close := fun _ w => w;
  UnmarshalStrict := unmarshal;
  Start := start;
  Stop := stop;
  Receive := receive
|}.

Definition no_flags : Flags := {|
  disable_attach := false;
  name := "io.kubernetes.storage.mock";
  attach_limit := 2;
  node_expand_required := false;
  enable_topology := false;
  disable_controller_expansion := false;
  disable_online_expansion := false;
  permissive_target_path := false;
  hooks_file := ""
|}.

Definition boot (vars : list (string * string)) (sigs : list Signal) : world := {|
  env := vars; paths := []; pinned := []; documents := []; busy := [];
  broken := []; serving := []; signals := sigs
|}.

(** Worlds for the scenarios of the specification. *)

(** One endpoint, a socket; SIGTERM is sent. *)
Definition a_sock : world :=
  boot [("CSI_ENDPOINT", "unix:///tmp/a.sock")] [SIGTERM].

(** Two endpoints on two ports; SIGINT is sent after a signal that is not
    relayed. *)
Definition two_ports : world :=
  boot [("CSI_ENDPOINT", "tcp://127.0.0.1:9000");
        ("CSI_CONTROLLER_ENDPOINT", "tcp://127.0.0.1:9001")] [SIGUSR1; SIGINT].

(** One endpoint, a socket on which the server does not start. *)
Definition no_server : world := {|
  env := [("CSI_ENDPOINT", "unix://tmp/a.sock")];
  paths := []; pinned := []; documents := []; busy := [];
  broken := ["/tmp/a.sock"]; serving := []; signals := [SIGTERM]
|}.

(** The transport prefix is written in upper case. *)
Definition upper_case : world :=
  boot [("CSI_ENDPOINT", "UNIX:///tmp/a.sock")] [SIGTERM].

(** A hooks file that the decoder refuses. *)
Definition bad_hooks : world := {|
  env := [("CSI_ENDPOINT", "tcp://127.0.0.1:9000")];
  paths := ["/etc/hooks.yaml"]; pinned := [];
  documents := [("/etc/hooks.yaml", "no mapping")]; busy := [];
  broken := []; serving := []; signals := [SIGHUP]
|}.

Definition hooks_flags : Flags := {|
  disable_attach := false;
  name := "io.kubernetes.storage.mock";
  attach_limit := 2;
  node_expand_required := false;
  enable_topology := false;
  disable_controller_expansion := false;
  disable_online_expansion := false;
  permissive_target_path := false;
  hooks_file := "/etc/hooks.yaml"
|}.

(** A stale socket file at the path of the endpoint [unix://tmp/a.sock]. *)
Definition stale_socket : world := {|
  env := [("CSI_ENDPOINT", "unix://tmp/a.sock")];
  paths := ["/tmp/a.sock"]; pinned := []; documents := []; busy := [];
  broken := []; serving := []; signals := [SIGQUIT]
|}.

(** Worlds for further runs. *)

(** No endpoint is set. *)
Definition unset : world := boot [] [SIGTERM].

(** One port, with default credentials asked for. *)
Definition with_creds : world :=
  boot [("CSI_ENDPOINT", "tcp://127.0.0.1:9000"); ("CSI_ENABLE_CREDS", "true")] [SIGTERM].

(** An endpoint with nothing after its prefix. *)
Definition no_address : world := boot [("CSI_ENDPOINT", "tcp://")] [SIGTERM].

(** Two endpoints; the one of the node has nothing after its prefix. *)
Definition node_without_address : world :=
  boot [("CSI_ENDPOINT", "tcp://"); ("CSI_CONTROLLER_ENDPOINT", "tcp://127.0.0.1:9001")]
       [SIGTERM].

(** One port; no signal that the process waits for is ever sent. *)
Definition no_signal : world :=
  boot [("CSI_ENDPOINT", "tcp://127.0.0.1:9000")] [SIGUSR1; SIGPIPE].

(** Two endpoints that are different strings for one socket. *)
Definition one_socket_twice : world :=
  boot [("CSI_ENDPOINT", "unix://tmp/a.sock"); ("CSI_CONTROLLER_ENDPOINT", "tmp/a.sock")]
       [SIGTERM].

End Sim.

#[global] Existing Instance Sim.sim.

(** ** Vocabulary of the properties *)

(** *** Endpoints *)

(** [colon_free s]: no byte of [s] is a colon. *)
Fixpoint colon_free (s : string) : bool :=
  match s with
  | EmptyString => true
  | String c s' => negb (Ascii.eqb c ":") && colon_free s'
  end.

(** [recognized ep]: the endpoint has one of the two transport prefixes, in
    any case of letters.  This is the test of [parseEndpoint]. *)
Definition recognized (ep : string) : bool :=
  HasPrefix (ToLower ep) "unix://" || HasPrefix (ToLower ep) "tcp://".

(** [remainder ep]: what follows the first [://] of [ep], if there is one. *)
Definition remainder (ep : string) : option string :=
  match Index ep "://" with
  | Some m => Some (slice_from (m + 3) ep)
  | None => None
  end.

(** The transport kinds of the specification.  [listen] takes the protocol
    ["unix"] for a socket in the file system (and nothing else: the
    comparison is exact), and [net.Listen] takes ["tcp"] for a network
    stream. *)
Inductive TransportKind : Type := filesystem_socket | network_stream.

Definition kind_of (proto : string) : option TransportKind :=
  if proto =? "unix" then Some filesystem_socket
  else if proto =? "tcp" then Some network_stream
  else None.

(** [non_ascii s]: every byte of [s] is outside ASCII. *)
Fixpoint non_ascii (s : string) : bool :=
  match s with
  | EmptyString => true
  | String c s' => (RuneSelf <=? byte c)%N && non_ascii s'
  end.

(** *** Readings of a trace *)

Section Traces.
Context {Hooks : Type}.

(** The events of a trace that [pick] keeps, in their order. *)
Fixpoint collect {X : Type} (pick : Event Hooks -> option X) (tr : list (Event Hooks))
  : list X :=
  match tr with
  | [] => []
  | e :: tr' =>
      match pick e with
      | Some x => x :: collect pick tr'
      | None => collect pick tr'
      end
  end.

(** The members that were built. *)
Definition built : list (Event Hooks) -> list (Driver Hooks) :=
  collect (fun e => match e with ev_NewDriver d => Some d | _ => None end).

(** The calls of [Start], with their results. *)
Definition start_calls : list (Event Hooks) -> list (Driver Hooks * Listener * option error) :=
  collect (fun e => match e with ev_Start d l err => Some (d, l, err) | _ => None end).

(** The members that were started, each with its listener. *)
Definition started : list (Event Hooks) -> list (Driver Hooks * Listener) :=
  collect (fun e => match e with ev_Start d l None => Some (d, l) | _ => None end).

(** The members that were stopped. *)
Definition stopped : list (Event Hooks) -> list (Driver Hooks) :=
  collect (fun e => match e with ev_Stop d => Some d | _ => None end).

(** The endpoints that [listen] was called with. *)
Definition listen_calls : list (Event Hooks) -> list string :=
  collect (fun e => match e with ev_listen ep _ _ _ => Some ep | _ => None end).

(** The listeners that [listen] acquired: the endpoint, the listener and its
    cleanup. *)
Definition acquired : list (Event Hooks) -> list (string * Listener * Func) :=
  collect (fun e => match e with
                    | ev_listen ep (Some l) (Some f) None => Some (ep, l, f)
                    | _ => None
                    end).

(** The cleanups that were run. *)
Definition cleanups_run : list (Event Hooks) -> list Func :=
  collect (fun e => match e with ev_deferred (defer_call f) => Some f | _ => None end).

(** The calls of [net.Listen]: network, address and result. *)
Definition net_listens : list (Event Hooks) -> list (string * string * option error) :=
  collect (fun e => match e with ev_Listen n a err => Some (n, a, err) | _ => None end).

(** The configurations that [service.New] was called with. *)
Definition services : list (Event Hooks) -> list (Config Hooks) :=
  collect (fun e => match e with ev_service_New c => Some c | _ => None end).

(** The calls of [klog.Errorf]. *)
Definition errors_logged : list (Event Hooks) -> list (string * list operand) :=
  collect (fun e => match e with ev_klog ERROR f ops => Some (f, ops) | _ => None end).

(** The signals that were received from the channel. *)
Definition signals_received : list (Event Hooks) -> list Signal :=
  collect (fun e => match e with ev_receive (Some sig) => Some sig | _ => None end).

(** The signals that the channel was registered for. *)
Definition notified : list (Event Hooks) -> list (list Signal) :=
  collect (fun e => match e with ev_Notify sigs => Some sigs | _ => None end).

(** The events that follow the receipt of a signal. *)
Fixpoint since_signal (tr : list (Event Hooks)) : list (Event Hooks) :=
  match tr with
  | [] => []
  | ev_receive (Some _) :: rest => rest
  | _ :: rest => since_signal rest
  end.

(** The events of [listen] before it returns: calls of [os.Remove] and of
    [net.Listen]. *)
Definition is_io (e : Event Hooks) : bool :=
  match e with
  | ev_Remove _ _ | ev_Listen _ _ _ => true
  | _ => false
  end.

(** The events of [parseHooksFile] on the file. *)
Definition is_file_event (e : Event Hooks) : bool :=
  match e with
  | ev_Open _ _ | ev_ReadAll _ _ | ev_Close _ | ev_deferred (defer_Close _) => true
  | _ => false
  end.

(** The events of the statement of [main] that loads the hooks. *)
Definition is_hooks_event (e : Event Hooks) : bool :=
  match e with
  | ev_Open _ _ | ev_ReadAll _ _ | ev_Close _ | ev_deferred (defer_Close _)
  | ev_klog (INFO 2) _ _ | ev_klog ERROR _ _ => true
  | _ => false
  end.

(** The names given to [os.Open]. *)
Definition open_calls : list (Event Hooks) -> list string :=
  collect (fun e => match e with ev_Open name _ => Some name | _ => None end).

(** The files that were opened. *)
Definition opened : list (Event Hooks) -> list File :=
  collect (fun e => match e with
                    | ev_Open name None => Some {| file_name := name |}
                    | _ => None
                    end).

(** The files that were closed. *)
Definition closed : list (Event Hooks) -> list File :=
  collect (fun e => match e with ev_Close fr => Some fr | _ => None end).

(** The calls of [klog.Exitf]. *)
Definition fatal_logged : list (Event Hooks) -> list (string * list operand) :=
  collect (fun e => match e with ev_klog FATAL f ops => Some (f, ops) | _ => None end).

(** The members on which [SetDefaultCreds] was called. *)
Definition creds_set : list (Event Hooks) -> list (Driver Hooks) :=
  collect (fun e => match e with ev_SetDefaultCreds d => Some d | _ => None end).

(** The names given to [os.Remove]. *)
Definition removed : list (Event Hooks) -> list string :=
  collect (fun e => match e with ev_Remove name _ => Some name | _ => None end).

(** The calls of [listen] that returned an error. *)
Definition listen_failures : list (Event Hooks) -> list (string * error) :=
  collect (fun e => match e with
                    | ev_listen ep _ _ (Some err) => Some (ep, err)
                    | _ => None
                    end).

(** The calls of [Start] that returned an error. *)
Definition start_failures : list (Event Hooks) -> list (Driver Hooks * error) :=
  collect (fun e => match e with ev_Start d _ (Some err) => Some (d, err) | _ => None end).

(** The fatal message of [main] for a member that does not start. *)
Definition start_failure_message (d : Driver Hooks) : string :=
  match servers d with
  | CSIDriverServers _ _ _ => "Error: Unable to start mock CSI server: %v\n"
  | CSIDriverControllerServer _ _ => "Error: Unable to start mock CSI controller server: %v\n"
  | CSIDriverNodeServer _ _ => "Error: Unable to start mock CSI node server: %v\n"
  end.

(** The events from the first cleanup on. *)
Fixpoint from_first_cleanup (tr : list (Event Hooks)) : list (Event Hooks) :=
  match tr with
  | [] => []
  | ev_deferred (defer_call f) :: rest => ev_deferred (defer_call f) :: rest
  | _ :: rest => from_first_cleanup rest
  end.

End Traces.

(** The paths that the cleanups [fs] remove. *)
Fixpoint socket_paths (fs : list Func) : list string :=
  match fs with
  | [] => []
  | func_Remove addr :: fs' => addr :: socket_paths fs'
  | func_nop :: fs' => socket_paths fs'
  end.

(** *** Runs *)

Section RunVocabulary.
Context {Hooks W : Type} {world_ops : World Hooks W}.

(** The two endpoints of the specification: the primary one, and the
    secondary one, which is the primary one when it is unset or empty. *)
Definition primary (w : W) : string := Getenv "CSI_ENDPOINT" w.
Definition secondary (w : W) : string :=
  if Getenv "CSI_CONTROLLER_ENDPOINT" w =? "" then primary w
  else Getenv "CSI_CONTROLLER_ENDPOINT" w.

(** The error that keeps the hooks file from being loaded in the world [w],
    if there is one: the file cannot be opened, or cannot be read, or the
    decoder refuses what was read. *)
Definition hooks_error (file : string) (w : W) : option error :=
  match Open file w with
  | (Some e, _) => Some e
  | (None, w1) =>
      match ReadAll {| file_name := file |} w1 with
      | (inr e, _) => Some e
      | (inl bytes, _) =>
          match UnmarshalStrict bytes with
          | inr e => Some e
          | inl _ => None
          end
      end
  end.

(** The roles of a member of the combined topology. *)
Definition all_roles : list Role := [Identity; Controller; Node].

(** [bound tr rs ep]: in the trace [tr] a member serving the roles [rs] was
    started on a listener that [listen] acquired for the endpoint [ep]. *)
Definition bound (tr : list (Event Hooks)) (rs : list Role) (ep : string) : Prop :=
  exists d l f, In (d, l) (started tr) /\ In (ep, l, f) (acquired tr) /\ roles d = rs.

(** The hooks that are loaded from the file in the world [w], if the file
    can be opened, read and decoded. *)
Definition hooks_loaded (file : string) (w : W) : option Hooks :=
  match Open file w with
  | (Some _, _) => None
  | (None, w1) =>
      match ReadAll {| file_name := file |} w1 with
      | (inr _, _) => None
      | (inl bytes, _) =>
          match UnmarshalStrict bytes with
          | inr _ => None
          | inl hooks => Some hooks
          end
      end
  end.

(** The hooks of a run: none without the flag [hooks-file]. *)
Definition hooks_of (flags : Flags) (w : W) : option Hooks :=
  if hooks_file flags =? "" then None else hooks_loaded (hooks_file flags) w.

(** [keeps_env key]: opening, reading and closing a file leave the
    environment variable [key] as it is. *)
Definition keeps_env (key : string) : Prop :=
  forall w : W,
    (forall name, Getenv key (snd (Open name w)) = Getenv key w)
    /\ (forall fr, Getenv key (snd (ReadAll fr w)) = Getenv key w)
    /\ (forall fr, Getenv key (Close fr w) = Getenv key w).

End RunVocabulary.

(** *** Three statements in the words of the specification

    The program does not satisfy them as they stand; each is refuted below
    and proved in an amended form. *)

Section AsSpecified.
Context {Hooks W : Type} {world_ops : World Hooks W}.

(** The split topology in the words of the specification: the member for
    the controller on the primary endpoint, the member for the node on the
    secondary one. *)
Definition split_as_specified (flags : Flags) (w : W) : Prop :=
  primary w <> secondary w ->
  let tr := trace (snd (run flags w)) in
  List.length (built tr) = 2
  /\ (fst (run flags w) = Exit 0 ->
        bound tr [Identity; Controller] (primary w)
        /\ bound tr [Identity; Node] (secondary w)).


(** Cleanup in the words of the specification: on every exit of the
    process, every acquired listener has had its cleanup run once. *)
Definition cleanup_as_specified (flags : Flags) (w : W) : Prop :=
  forall code, fst (run flags w) = Exit code ->
  let tr := trace (snd (run flags w)) in
  Permutation (cleanups_run tr) (map snd (acquired tr)).
End AsSpecified.

(** The process as it starts in the simulated world [w]. *)
Definition boot_proc (w : Sim.world) : Proc Sim.Hooks :=
  {| world := w; deferred := []; trace := [] |}.

(** * Properties *)

(** ** Strings *)

Module GoStringsFacts.

Lemma slice_to_app (s t : string) : slice_to (String.length s) (s ++ t) = s.
Proof. induction s as [|c s IH]; simpl; [destruct t|rewrite IH]; reflexivity. Qed.

Lemma slice_from_app (s t : string) (n : nat) :
  slice_from (String.length s + n) (s ++ t) = slice_from n t.
Proof. induction s as [|c s IH]; simpl; auto. Qed.

Lemma slice_to_from (n : nat) (s : string) : slice_to n s ++ slice_from n s = s.
Proof.
  revert s; induction n as [|n IH]; intros [|c s]; simpl; try reflexivity.
  now rewrite IH.
Qed.

Lemma slice_from_length (n : nat) (s : string) :
  String.length (slice_from n s) = String.length s - n.
Proof. revert s; induction n as [|n IH]; intros [|c s]; simpl; auto. Qed.

Lemma HasPrefix_app (s p : string) :
  HasPrefix s p = true -> exists t, s = p ++ t.
Proof.
  revert s; induction p as [|a p IH]; intros s H; simpl in *.
  - now exists s.
  - destruct s as [|c s]; [discriminate|].
    apply andb_true_iff in H as [Hc Hp].
    apply Ascii.eqb_eq in Hc; subst c.
    destruct (IH _ Hp) as [t ->]. now exists t.
Qed.

Lemma HasPrefix_refl_app (p t : string) : HasPrefix (p ++ t) p = true.
Proof.
  induction p as [|a p IH]; simpl; [destruct t; reflexivity|].
  now rewrite Ascii.eqb_refl.
Qed.

Lemma colon_free_app (s t : string) :
  colon_free (s ++ t) = colon_free s && colon_free t.
Proof. induction s as [|c s IH]; simpl; [reflexivity|]. now rewrite IH, andb_assoc. Qed.

Lemma Index_after_colon_free (s t : string) :
  colon_free s = true -> Index (s ++ "://" ++ t) "://" = Some (String.length s).
Proof.
  induction s as [|c s IH]; intros H.
  - destruct t; reflexivity.
  - simpl in H. apply andb_true_iff in H as [Hc Hs].
    apply negb_true_iff in Hc.
    change (Index (String c s ++ "://" ++ t) "://")
      with (if Ascii.eqb c ":" && HasPrefix (s ++ "://" ++ t) "//"
            then Some O else option_map S (Index (s ++ "://" ++ t) "://")).
    rewrite Hc, (IH Hs). reflexivity.
Qed.

Lemma SplitN_scheme (s t : string) :
  colon_free s = true -> SplitN (s ++ "://" ++ t) "://" 2 = [s; t].
Proof.
  intros H. cbn [SplitN]. rewrite (Index_after_colon_free s t H).
  rewrite slice_to_app, slice_from_app. reflexivity.
Qed.

Lemma lor_lower_bound (a b : N) (k : N) : (2 ^ k <= a -> 2 ^ k <= N.lor a b)%N.
Proof.
  intros Ha.
  destruct (N.lt_ge_cases (N.lor a b) (2 ^ k)) as [Hlt|]; [|assumption].
  exfalso.
  assert (Hpos : (0 < 2 ^ k)%N) by (apply N.neq_0_lt_0, N.pow_nonzero; discriminate).
  destruct (N.eq_dec (N.lor a b) 0) as [H0|Hn0].
  - apply N.lor_eq_0_l in H0. lia.
  - apply N.log2_lt_pow2 in Hlt; [|lia].
    rewrite N.log2_lor in Hlt.
    assert (Hl : (N.log2 a < k)%N) by lia.
    apply N.log2_lt_pow2 in Hl; lia.
Qed.

Lemma lor_lower_bound_r (a b : N) (k : N) : (2 ^ k <= b -> 2 ^ k <= N.lor a b)%N.
Proof. rewrite N.lor_comm. apply lor_lower_bound. Qed.

Lemma mod_range (s lo k m : N) :
  (lo = k * m -> m <> 0 -> lo <= s -> s < lo + m -> s mod m = s - lo)%N.
Proof.
  intros -> Hm H1 H2. symmetry. apply N.mod_unique with (q := k); lia.
Qed.

Lemma land_mask (s lo k : N) (bits : N) :
  (lo = k * 2 ^ bits -> lo <= s -> s < lo + 2 ^ bits ->
   N.land s (N.ones bits) = s - lo)%N.
Proof.
  intros Hlo H1 H2. rewrite N.land_ones.
  apply (mod_range s lo k); auto. apply N.pow_nonzero. discriminate.
Qed.


Ltac bools :=
  repeat match goal with
  | H : (_ <? _)%N = true |- _ => apply N.ltb_lt in H
  | H : (_ <? _)%N = false |- _ => apply N.ltb_ge in H
  | H : (_ <=? _)%N = true |- _ => apply N.leb_le in H
  | H : (_ <=? _)%N = false |- _ => apply N.leb_gt in H
  | H : (_ =? _)%N = true |- _ => apply N.eqb_eq in H
  | H : (_ =? _)%N = false |- _ => apply N.eqb_neq in H
  | H : outside _ _ _ = false |- _ => unfold outside in H
  | H : (_ || _) = false |- _ => apply orb_false_iff in H; destruct H
  | H : (_ && _) = true |- _ => apply andb_true_iff in H; destruct H
  end.

Ltac break_decode :=
  unfold DecodeRuneInString, first;
  repeat (cbn [Nat.leb];
          match goal with
          | |- context [if ?b then _ else _] => destruct b eqn:?
          | |- context [match ?t with EmptyString => _ | String _ _ => _ end] =>
              destruct t
          end).

Lemma Decode_ascii (c0 : ascii) (t0 : string) :
  (byte c0 < RuneSelf)%N -> DecodeRuneInString (String c0 t0) = (byte c0, 1).
Proof.
  intros H. unfold DecodeRuneInString, first.
  apply N.ltb_lt in H. unfold RuneSelf in H. now rewrite H.
Qed.

Lemma Decode_width (c0 : ascii) (t0 : string) :
  1 <= snd (DecodeRuneInString (String c0 t0)).
Proof. break_decode; simpl; lia. Qed.

Lemma rune2_lower_bound (s0 s1 : N) :
  (0xC2 <= s0 -> s0 < 0xE0 ->
   0x80 <= N.lor (N.shiftl (N.land s0 mask2) 6) (N.land s1 maskx))%N.
Proof.
  intros H1 H2. apply (lor_lower_bound _ _ 7).
  change mask2 with (N.ones 5). rewrite (land_mask s0 0xC0 6 5) by (try reflexivity; simpl; lia).
  rewrite N.shiftl_mul_pow2. change (2 ^ 6)%N with 64%N. change (2 ^ 7)%N with 128%N. lia.
Qed.

Lemma cont_bits (s : N) :
  (0x80 <= s -> s <= 0xBF -> N.land s maskx = s - 0x80)%N.
Proof.
  intros H1 H2. change maskx with (N.ones 6).
  rewrite (land_mask s 0x80 2 6) by (try reflexivity; simpl; lia). lia.
Qed.

Lemma rune3_lower_bound (s0 s1 s2 : N) :
  (0xE0 <= s0 -> s0 < 0xF0 -> 0x80 <= s1 -> s1 <= 0xBF ->
   (s0 = 0xE0 -> 0xA0 <= s1) ->
   0x80 <= N.lor (N.lor (N.shiftl (N.land s0 mask3) 12)
                        (N.shiftl (N.land s1 maskx) 6))
                 (N.land s2 maskx))%N.
Proof.
  intros H1 H2 H4 H5 H6. apply (lor_lower_bound _ _ 7).
  change (2 ^ 7)%N with 128%N.
  destruct (N.eq_dec s0 0xE0) as [He|Hne].
  - apply (lor_lower_bound_r _ _ 7). change (2 ^ 7)%N with 128%N.
    specialize (H6 He). rewrite (cont_bits s1) by lia.
    rewrite N.shiftl_mul_pow2. change (2 ^ 6)%N with 64%N. lia.
  - apply (lor_lower_bound _ _ 7). change (2 ^ 7)%N with 128%N.
    change mask3 with (N.ones 4).
    rewrite (land_mask s0 0xE0 14 4) by (try reflexivity; simpl; lia).
    rewrite N.shiftl_mul_pow2. change (2 ^ 12)%N with 4096%N. lia.
Qed.

Lemma rune4_lower_bound (s0 s1 s2 s3 : N) :
  (0xF0 <= s0 -> s0 <= 0xF4 -> 0x80 <= s1 -> s1 <= 0xBF ->
   (s0 = 0xF0 -> 0x90 <= s1) ->
   0x80 <= N.lor (N.lor (N.lor (N.shiftl (N.land s0 mask4) 18)
                               (N.shiftl (N.land s1 maskx) 12))
                        (N.shiftl (N.land s2 maskx) 6))
                 (N.land s3 maskx))%N.
Proof.
  intros H1 H2 H4 H5 H6. do 2 apply (lor_lower_bound _ _ 7).
  change (2 ^ 7)%N with 128%N.
  destruct (N.eq_dec s0 0xF0) as [He|Hne].
  - apply (lor_lower_bound_r _ _ 7). change (2 ^ 7)%N with 128%N.
    specialize (H6 He). rewrite (cont_bits s1) by lia.
    rewrite N.shiftl_mul_pow2. change (2 ^ 12)%N with 4096%N. lia.
  - apply (lor_lower_bound _ _ 7). change (2 ^ 7)%N with 128%N.
    change mask4 with (N.ones 3).
    rewrite (land_mask s0 0xF0 30 3) by (try reflexivity; simpl; lia).
    rewrite N.shiftl_mul_pow2. change (2 ^ 18)%N with 262144%N. lia.
Qed.


Lemma Decode_non_ascii (c0 : ascii) (t0 : string) :
  (RuneSelf <= byte c0)%N ->
  (RuneSelf <= fst (DecodeRuneInString (String c0 t0)))%N /\
  non_ascii (slice_to (snd (DecodeRuneInString (String c0 t0))) (String c0 t0)) = true.
Proof.
  unfold RuneSelf. intros H0.
  break_decode; bools; cbn [fst snd slice_to non_ascii]; unfold RuneSelf, locb, hicb in *;
    repeat match goal with
    | |- _ /\ _ => split
    | |- (_ && _) = true => apply andb_true_iff; split
    | |- (_ <=? _)%N = true => apply N.leb_le
    | |- true = true => reflexivity
    end;
    try (unfold RuneError; lia);
    try (apply rune2_lower_bound; lia);
    try (apply rune3_lower_bound; lia);
    try (apply rune4_lower_bound; lia).
Qed.

Lemma byte_to_byte (n : N) : (byte (to_byte n) = n mod 256)%N.
Proof.
  unfold byte, to_byte. apply N_ascii_embedding.
  apply N.mod_upper_bound. discriminate.
Qed.

Lemma to_byte_byte (c : ascii) : to_byte (byte c) = c.
Proof.
  unfold byte, to_byte. rewrite N.mod_small by apply N_ascii_bounded.
  apply ascii_N_embedding.
Qed.

Lemma high_bit (n : N) : N.testbit n 7 = true -> (0x80 <= byte (to_byte n))%N.
Proof.
  intros H. rewrite byte_to_byte.
  rewrite <- (N.mod_pow2_bits_low n 8 7) in H by reflexivity.
  change (2 ^ 8)%N with 256%N in H.
  set (m := (n mod 256)%N) in *.
  destruct (N.lt_ge_cases m 0x80) as [Hlt|]; [|assumption].
  exfalso.
  destruct (N.eq_dec m 0) as [H0|Hn0].
  - rewrite H0, N.bits_0 in H. discriminate.
  - rewrite N.bits_above_log2 in H; [discriminate|].
    apply N.log2_lt_pow2; [lia|]. exact Hlt.
Qed.

Lemma EncodeRune_ascii (r : N) :
  (r < RuneSelf)%N -> EncodeRune r = String (to_byte r) "".
Proof.
  unfold RuneSelf, EncodeRune. intros H.
  destruct (r <=? 0x7F)%N eqn:E; [reflexivity|]. apply N.leb_gt in E. lia.
Qed.

Lemma EncodeRune_non_ascii (r : N) :
  (RuneSelf <= r)%N ->
  exists b t, EncodeRune r = String b t /\ (RuneSelf <= byte b)%N.
Proof.
  unfold RuneSelf, EncodeRune, encode3. intros H.
  destruct (r <=? 0x7F)%N eqn:E; [apply N.leb_le in E; lia|].
  repeat match goal with
         | |- context [if ?b then _ else _] => destruct b
         end;
    do 2 eexists; (split; [reflexivity|]);
    apply high_bit; rewrite N.lor_spec; reflexivity.
Qed.

Lemma EncodeRune_cons (r : N) : exists b t, EncodeRune r = String b t.
Proof.
  destruct (N.lt_ge_cases r RuneSelf) as [H|H].
  - rewrite (EncodeRune_ascii r H). eauto.
  - destruct (EncodeRune_non_ascii r H) as (b & t & E & _). eauto.
Qed.

Lemma unicode_ToLower_ascii (r : N) :
  (r < RuneSelf)%N -> (unicode_ToLower r < RuneSelf)%N.
Proof.
  unfold RuneSelf, unicode_ToLower, MaxASCII, is_upper_ascii. intros H.
  destruct (r <=? 0x7F)%N eqn:E; [|apply N.leb_gt in E; lia].
  destruct ((0x41 <=? r)%N && (r <=? 0x5A)%N) eqn:U; [|assumption].
  bools. lia.
Qed.

Lemma unicode_ToLower_non_ascii (r : N) :
  (RuneSelf <= r)%N ->
  unicode_ToLower r = 0x69%N \/ unicode_ToLower r = 0x6B%N \/
  (RuneSelf <= unicode_ToLower r)%N.
Proof.
  unfold RuneSelf, unicode_ToLower, MaxASCII. intros H.
  destruct (r <=? 0x7F)%N eqn:E; [apply N.leb_le in E; lia|].
  destruct (r =? 0x130)%N; [now left|].
  destruct (r =? 0x212A)%N; [now right; left|].
  now right; right.
Qed.

Section Map.
Variable mapping : N -> N.

Lemma Map_loop_fuel (n m : nat) (s : string) :
  String.length s <= n -> String.length s <= m ->
  Map_loop n mapping s = Map_loop m mapping s.
Proof.
  revert m s. induction n as [|n IH]; intros m s Hn Hm.
  - destruct s; [|simpl in Hn; lia]. destruct m; reflexivity.
  - destruct s as [|c0 t0]; [destruct m; reflexivity|].
    destruct m as [|m]; [simpl in Hm; lia|].
    cbn [Map_loop].
    pose proof (Decode_width c0 t0) as Hw.
    destruct (DecodeRuneInString (String c0 t0)) as [c w]. cbn [snd] in Hw.
    f_equal. apply IH; rewrite slice_from_length; cbn [String.length] in *; lia.
Qed.

Lemma Map_cons (c0 : ascii) (t0 : string) :
  Map mapping (String c0 t0) =
  EncodeRune (mapping (fst (DecodeRuneInString (String c0 t0))))
  ++ Map mapping (slice_from (snd (DecodeRuneInString (String c0 t0))) (String c0 t0)).
Proof.
  unfold Map. cbn [String.length Map_loop].
  pose proof (Decode_width c0 t0) as Hw.
  destruct (DecodeRuneInString (String c0 t0)) as [c w]. cbn [fst snd] in *.
  f_equal. apply Map_loop_fuel; rewrite ?slice_from_length; cbn [String.length]; lia.
Qed.

End Map.

Lemma lower_byte_spec (c : ascii) :
  (byte c < RuneSelf)%N ->
  to_byte (unicode_ToLower (byte c)) =
  if is_upper_ascii (byte c) then to_byte (byte c + 0x20) else c.
Proof.
  unfold RuneSelf, unicode_ToLower, MaxASCII. intros H.
  destruct (byte c <=? 0x7F)%N eqn:E; [|apply N.leb_gt in E; lia].
  destruct (is_upper_ascii (byte c)); [reflexivity|apply to_byte_byte].
Qed.

Lemma Map_ToLower_ascii (s : string) :
  isASCII s = true -> Map unicode_ToLower s = lower_bytes s.
Proof.
  induction s as [|c s IH]; intros H; [reflexivity|].
  cbn [isASCII] in H. apply andb_true_iff in H as [Hc Hs]. apply N.ltb_lt in Hc.
  rewrite Map_cons, (Decode_ascii c s Hc). cbn [fst snd slice_from].
  rewrite EncodeRune_ascii by now apply unicode_ToLower_ascii.
  cbn [append lower_bytes]. now rewrite (IH Hs), lower_byte_spec.
Qed.

Lemma lower_bytes_no_upper (s : string) : hasUpper s = false -> lower_bytes s = s.
Proof.
  induction s as [|c s IH]; intros H; [reflexivity|].
  cbn [hasUpper] in H. apply orb_false_iff in H as [Hc Hs].
  cbn [lower_bytes]. now rewrite Hc, (IH Hs).
Qed.

(** The two paths of [strings.ToLower] are one function. *)
Lemma ToLower_Map (s : string) : ToLower s = Map unicode_ToLower s.
Proof.
  unfold ToLower. destruct (isASCII s) eqn:A; [|reflexivity].
  rewrite (Map_ToLower_ascii s A).
  destruct (hasUpper s) eqn:U; [reflexivity|].
  symmetry. now apply lower_bytes_no_upper.
Qed.

Lemma non_ascii_colon_free (s : string) : non_ascii s = true -> colon_free s = true.
Proof.
  induction s as [|c s IH]; intros H; [reflexivity|].
  cbn [non_ascii] in H. apply andb_true_iff in H as [Hc Hs]. apply N.leb_le in Hc.
  cbn [colon_free]. rewrite (IH Hs), andb_true_r.
  destruct (Ascii.eqb c ":") eqn:E; [|reflexivity].
  apply Ascii.eqb_eq in E. subst c. vm_compute in Hc. now destruct Hc.
Qed.

(** The first byte of a lowered string, when it is an ASCII byte, comes
    from the first rune of the string: an ASCII byte, or a sequence of
    bytes outside ASCII that lowers to [i] or to [k]. *)
Lemma Map_ToLower_head (s : string) (a : ascii) (t : string) :
  Map unicode_ToLower s = String a t -> (byte a < RuneSelf)%N ->
  exists k s',
    s = k ++ s' /\ Map unicode_ToLower s' = t /\
    ((exists c, k = String c "" /\ (byte c < RuneSelf)%N /\
                a = to_byte (unicode_ToLower (byte c)))
     \/ (non_ascii k = true /\ (a = "i"%char \/ a = "k"%char))).
Proof.
  intros H Ha. destruct s as [|c0 t0]; [discriminate|].
  rewrite Map_cons in H.
  exists (slice_to (snd (DecodeRuneInString (String c0 t0))) (String c0 t0)),
         (slice_from (snd (DecodeRuneInString (String c0 t0))) (String c0 t0)).
  split; [now rewrite slice_to_from|].
  destruct (N.lt_ge_cases (byte c0) RuneSelf) as [Hc|Hc].
  - rewrite (Decode_ascii c0 t0 Hc) in *. cbn [fst snd slice_to slice_from] in *.
    rewrite EncodeRune_ascii in H by now apply unicode_ToLower_ascii.
    injection H as <- <-. split; [reflexivity|]. left. now exists c0.
  - destruct (Decode_non_ascii c0 t0 Hc) as [Hr Hk].
    destruct (unicode_ToLower_non_ascii _ Hr) as [E|[E|E]].
    + rewrite E in H. injection H as <- <-. split; [reflexivity|]. right. now split; [|left].
    + rewrite E in H. injection H as <- <-. split; [reflexivity|]. right. now split; [|right].
    + destruct (EncodeRune_non_ascii _ E) as (b & t' & Eb & Hb).
      rewrite Eb in H. injection H as <- _. lia.
Qed.

Lemma lowers_to_colon (c : ascii) :
  to_byte (unicode_ToLower (byte c)) = ":"%char -> c = ":"%char.
Proof.
  destruct c as [[] [] [] [] [] [] [] []]; vm_compute; intros H;
    first [reflexivity | discriminate H].
Qed.

Lemma lowers_to_slash (c : ascii) :
  to_byte (unicode_ToLower (byte c)) = "/"%char -> c = "/"%char.
Proof.
  destruct c as [[] [] [] [] [] [] [] []]; vm_compute; intros H;
    first [reflexivity | discriminate H].
Qed.

(** Where the lowered string starts with [p], colon-free ASCII text, the
    string starts with colon-free text that is lowered to [p]. *)
Lemma lowered_prefix (p : string) :
  isASCII p = true -> colon_free p = true ->
  forall s t, Map unicode_ToLower s = p ++ t ->
  exists s0 s', s = s0 ++ s' /\ Map unicode_ToLower s' = t /\ colon_free s0 = true.
Proof.
  induction p as [|a p IH]; intros Hp Hc s t H.
  - exists "", s. auto.
  - cbn [isASCII colon_free] in Hp, Hc.
    apply andb_true_iff in Hp as [Ha Hp]. apply andb_true_iff in Hc as [Hac Hc].
    apply N.ltb_lt in Ha. apply negb_true_iff in Hac.
    destruct (Map_ToLower_head s a (p ++ t) H Ha) as (k & s1 & -> & Hs1 & Hk).
    destruct (IH Hp Hc s1 t Hs1) as (s0 & s' & -> & Hs' & Hs0).
    exists (k ++ s0), s'. split; [|split; [assumption|]].
    + clear. induction k as [|c k IHk]; simpl; [reflexivity|now rewrite IHk].
    + rewrite colon_free_app, Hs0, andb_true_r.
      destruct Hk as [(c & -> & _ & Hlow)|[Hk _]].
      * cbn [colon_free]. rewrite andb_true_r.
        destruct (Ascii.eqb c ":") eqn:E; [|reflexivity].
        apply Ascii.eqb_eq in E. subst c. vm_compute in Hlow. subst a.
        discriminate Hac.
      * now apply non_ascii_colon_free.
Qed.

Lemma lowered_separator (s t : string) :
  Map unicode_ToLower s = "://" ++ t ->
  exists rest, s = "://" ++ rest /\ Map unicode_ToLower rest = t.
Proof.
  intros H.
  destruct (Map_ToLower_head s ":" _ H) as (k1 & s1 & -> & H1 & K1); [reflexivity|].
  destruct (Map_ToLower_head s1 "/" _ H1) as (k2 & s2 & -> & H2 & K2); [reflexivity|].
  destruct (Map_ToLower_head s2 "/" _ H2) as (k3 & s3 & -> & H3 & K3); [reflexivity|].
  destruct K1 as [(c1 & -> & _ & L1)|[_ [E|E]]]; try discriminate E.
  destruct K2 as [(c2 & -> & _ & L2)|[_ [E|E]]]; try discriminate E.
  destruct K3 as [(c3 & -> & _ & L3)|[_ [E|E]]]; try discriminate E.
  symmetry in L1, L2, L3.
  apply lowers_to_colon in L1. apply lowers_to_slash in L2. apply lowers_to_slash in L3.
  subst. now exists s3.
Qed.

(** An endpoint whose lowered text starts with a scheme and [://] is a
    colon-free scheme, [://] and a remainder. *)
Lemma lowered_scheme (p ep t : string) :
  isASCII p = true -> colon_free p = true ->
  ToLower ep = p ++ "://" ++ t ->
  exists scheme rest,
    ep = scheme ++ "://" ++ rest /\ colon_free scheme = true /\
    Map unicode_ToLower rest = t.
Proof.
  intros Hp Hc H. rewrite ToLower_Map in H.
  destruct (lowered_prefix p Hp Hc ep _ H) as (scheme & s' & -> & Hs' & Hs).
  destruct (lowered_separator s' t Hs') as (rest & -> & Hrest).
  now exists scheme, rest.
Qed.

Lemma ToLower_ascii_app (p s : string) :
  isASCII p = true ->
  Map unicode_ToLower (p ++ s)%string = (lower_bytes p ++ Map unicode_ToLower s)%string.
Proof.
  induction p as [|c p IH]; intros H; [reflexivity|].
  cbn [isASCII] in H. apply andb_true_iff in H as [Hc Hp]. apply N.ltb_lt in Hc.
  cbn [append]. rewrite Map_cons, (Decode_ascii c _ Hc). cbn [fst snd slice_from].
  rewrite EncodeRune_ascii by now apply unicode_ToLower_ascii.
  cbn [append lower_bytes]. now rewrite (IH Hp), lower_byte_spec.
Qed.

Lemma string_app_assoc (k s x : string) : ((k ++ s) ++ x = k ++ (s ++ x))%string.
Proof. induction k as [|c k IH]; simpl; [reflexivity|now rewrite IH]. Qed.

Lemma string_app_empty_r (s : string) : (s ++ "")%string = s.
Proof. induction s as [|c s IH]; simpl; [reflexivity|now rewrite IH]. Qed.

Lemma slice_from_slice_to_app (n : nat) (s x : string) :
  n <= String.length s -> slice_from n (slice_to n s ++ x) = x.
Proof.
  revert s; induction n as [|n IH]; intros s H; [reflexivity|].
  destruct s as [|c s]; [simpl in H; lia|]. simpl in *. apply IH. lia.
Qed.

Lemma Decode_width_le (s : string) : snd (DecodeRuneInString s) <= String.length s.
Proof.
  destruct s as [|c0 t0]; [reflexivity|].
  break_decode; cbn [snd String.length]; lia.
Qed.

(** A rune that was decoded from a legal sequence is decoded from that
    sequence alone, whatever follows it. *)
Lemma Decode_prefix (s x : string) :
  fst (DecodeRuneInString s) <> RuneError ->
  DecodeRuneInString (slice_to (snd (DecodeRuneInString s)) s ++ x) = DecodeRuneInString s.
Proof.
  destruct s as [|c0 t0]; [intros H; now contradiction H|].
  unfold DecodeRuneInString.
  destruct (first (byte c0)) as [| |sz lo hi] eqn:F; cbn [fst snd slice_to append];
    rewrite ?F; [reflexivity|intros H; now contradiction H|].
  destruct t0 as [|c1 t1]; [intros H; now contradiction H|].
  destruct (outside lo hi (byte c1)) eqn:O1; [intros H; now contradiction H|].
  destruct (sz <=? 2)%nat eqn:S2; cbn [fst snd slice_to append]; rewrite ?F, ?O1, ?S2;
    [reflexivity|].
  destruct t1 as [|c2 t2]; [intros H; now contradiction H|].
  destruct (outside locb hicb (byte c2)) eqn:O2; [intros H; now contradiction H|].
  destruct (sz <=? 3)%nat eqn:S3; cbn [fst snd slice_to append]; rewrite ?F, ?O1, ?S2, ?O2, ?S3;
    [reflexivity|].
  destruct t2 as [|c3 t3]; [intros H; now contradiction H|].
  destruct (outside locb hicb (byte c3)) eqn:O3; [intros H; now contradiction H|].
  cbn [fst snd slice_to append]; rewrite ?F, ?O1, ?S2, ?O2, ?S3, ?O3. reflexivity.
Qed.

Lemma unicode_ToLower_to_ascii (r : N) :
  (RuneSelf <= r)%N -> (unicode_ToLower r < RuneSelf)%N -> r <> RuneError.
Proof.
  unfold RuneSelf, unicode_ToLower, MaxASCII, RuneError. intros H L ->.
  vm_compute in L. discriminate L.
Qed.

(** The first byte of a lowered string, when it is an ASCII byte, is the
    image of the first rune of the string, whatever follows that rune. *)
Lemma Map_ToLower_head_exact (s : string) (a : ascii) (t : string) :
  Map unicode_ToLower s = String a t -> (byte a < RuneSelf)%N ->
  exists k s',
    s = k ++ s' /\ Map unicode_ToLower s' = t /\ colon_free k = negb (Ascii.eqb a ":")
    /\ forall x, Map unicode_ToLower (k ++ x) = String a (Map unicode_ToLower x).
Proof.
  intros H Ha. destruct s as [|c0 t0]; [discriminate|].
  rewrite Map_cons in H.
  exists (slice_to (snd (DecodeRuneInString (String c0 t0))) (String c0 t0)),
         (slice_from (snd (DecodeRuneInString (String c0 t0))) (String c0 t0)).
  split; [now rewrite slice_to_from|].
  destruct (N.lt_ge_cases (byte c0) RuneSelf) as [Hc|Hc].
  - rewrite (Decode_ascii c0 t0 Hc) in *. cbn [fst snd slice_to slice_from] in *.
    rewrite EncodeRune_ascii in H by now apply unicode_ToLower_ascii.
    injection H as <- <-. split; [reflexivity|]. split.
    + cbn [colon_free]. rewrite andb_true_r. f_equal.
      destruct (Ascii.eqb c0 ":") eqn:E.
      * apply Ascii.eqb_eq in E. subst c0. reflexivity.
      * symmetry. apply Ascii.eqb_neq. intros L. apply lowers_to_colon in L.
        apply Ascii.eqb_neq in E. contradiction.
    + intros x. cbn [append]. rewrite Map_cons, (Decode_ascii c0 x Hc).
      cbn [fst snd slice_from].
      rewrite EncodeRune_ascii by now apply unicode_ToLower_ascii. reflexivity.
  - destruct (Decode_non_ascii c0 t0 Hc) as [Hr Hk].
    pose proof (Decode_width c0 t0) as W1.
    pose proof (Decode_width_le (String c0 t0)) as W2.
    pose proof (fun x => Decode_prefix (String c0 t0) x) as D.
    remember (fst (DecodeRuneInString (String c0 t0))) as r eqn:Er.
    remember (snd (DecodeRuneInString (String c0 t0))) as w eqn:Ew.
    assert (Hlow : (unicode_ToLower r < RuneSelf)%N).
    { destruct (N.lt_ge_cases (unicode_ToLower r) RuneSelf) as [L|L]; [assumption|].
      destruct (EncodeRune_non_ascii _ L) as (b & t' & Eb & Hb).
      rewrite Eb in H. injection H as <- _. lia. }
    rewrite EncodeRune_ascii in H by assumption.
    injection H as Ea Et. split; [assumption|]. split.
    + rewrite (non_ascii_colon_free _ Hk). symmetry. apply negb_true_iff.
      apply Ascii.eqb_neq. intros ->.
      destruct (unicode_ToLower_non_ascii _ Hr) as [E|[E|E]];
        [rewrite E in Ea; discriminate Ea|rewrite E in Ea; discriminate Ea|lia].
    + intros x.
      assert (Hne : r <> RuneError) by now apply unicode_ToLower_to_ascii.
      specialize (D x Hne).
      destruct (slice_to w (String c0 t0) ++ x) as [|d0 u0] eqn:Ek.
      { destruct w; [lia|]. discriminate Ek. }
      rewrite Map_cons, D, <- Ek.
      replace (DecodeRuneInString (String c0 t0)) with (r, w)
        by (rewrite Er, Ew; now destruct (DecodeRuneInString (String c0 t0))).
      cbn [fst snd].
      rewrite EncodeRune_ascii by assumption. rewrite Ea.
      now rewrite slice_from_slice_to_app.
Qed.

(** Where the lowered string starts with [p], colon-free ASCII text, the
    string starts with colon-free text whose lowered form is [p]. *)
Lemma lowered_prefix_exact (p : string) :
  isASCII p = true -> colon_free p = true ->
  forall s t, Map unicode_ToLower s = p ++ t ->
  exists s0 s', s = s0 ++ s' /\ Map unicode_ToLower s' = t /\ colon_free s0 = true
                /\ forall x, Map unicode_ToLower (s0 ++ x) = p ++ Map unicode_ToLower x.
Proof.
  induction p as [|a p IH]; intros Hp Hc s t H.
  - exists "", s. auto.
  - cbn [isASCII colon_free] in Hp, Hc.
    apply andb_true_iff in Hp as [Ha Hp]. apply andb_true_iff in Hc as [Hac Hc].
    apply N.ltb_lt in Ha.
    destruct (Map_ToLower_head_exact s a (p ++ t) H Ha) as (k & s1 & -> & Hs1 & Hk & Hx).
    destruct (IH Hp Hc s1 t Hs1) as (s0 & s' & -> & Hs' & Hs0 & Hx0).
    exists (k ++ s0), s'. split; [now rewrite string_app_assoc|]. split; [assumption|]. split.
    + now rewrite colon_free_app, Hs0, Hk, Hac.
    + intros x. rewrite string_app_assoc, Hx, Hx0. reflexivity.
Qed.

Lemma lower_bytes_isASCII (s : string) :
  isASCII (lower_bytes s) = true -> isASCII s = true.
Proof.
  induction s as [|c s IH]; [reflexivity|].
  cbn [lower_bytes isASCII]. intros H. apply andb_true_iff in H as [Hc Hs].
  rewrite (IH Hs), andb_true_r.
  destruct (is_upper_ascii (byte c)) eqn:U; [|assumption].
  unfold is_upper_ascii in U. apply andb_true_iff in U as [_ U].
  apply N.leb_le in U. apply N.ltb_lt. unfold RuneSelf. lia.
Qed.

Lemma lower_bytes_colon_free (s : string) :
  colon_free (lower_bytes s) = true -> colon_free s = true.
Proof.
  induction s as [|c s IH]; [reflexivity|].
  cbn [lower_bytes colon_free]. intros H. apply andb_true_iff in H as [Hc Hs].
  rewrite (IH Hs), andb_true_r.
  destruct (is_upper_ascii (byte c)) eqn:U; [|assumption].
  destruct (Ascii.eqb c ":") eqn:E; [|reflexivity].
  apply Ascii.eqb_eq in E. subst c. discriminate U.
Qed.

End GoStringsFacts.

(** ** Endpoint resolution *)

Import GoStringsFacts.

Section Endpoint.

Lemma recognized_scheme (ep : string) :
  recognized ep = true ->
  exists scheme rest,
    ep = scheme ++ "://" ++ rest /\ colon_free scheme = true.
Proof.
  unfold recognized. intros H. apply orb_true_iff in H as [H|H];
    apply HasPrefix_app in H as [t H].
  - destruct (lowered_scheme "unix" ep t eq_refl eq_refl H) as (sc & rest & E & C & _).
    now exists sc, rest.
  - destruct (lowered_scheme "tcp" ep t eq_refl eq_refl H) as (sc & rest & E & C & _).
    now exists sc, rest.
Qed.

(** What [parseEndpoint] does with a recognized endpoint: it cuts it at
    its first [://]. *)
Lemma parseEndpoint_recognized (ep : string) :
  recognized ep = true ->
  exists scheme rest,
    ep = scheme ++ "://" ++ rest /\ colon_free scheme = true /\
    remainder ep = Some rest /\
    parseEndpoint ep =
      if rest =? "" then Some ("", "", Some (Errorf "Invalid endpoint: %v" [a_string ep]))
      else Some (scheme, rest, None).
Proof.
  intros H. destruct (recognized_scheme ep H) as (scheme & rest & E & C).
  exists scheme, rest. split; [assumption|]. split; [assumption|]. split.
  - unfold remainder. rewrite E, (Index_after_colon_free scheme rest C).
    now rewrite (slice_from_app scheme ("://" ++ rest) 3).
  - unfold parseEndpoint. fold (recognized ep). rewrite H.
    replace (SplitN ep "://" 2) with [scheme; rest]
      by (rewrite E; symmetry; apply (SplitN_scheme scheme rest C)).
    cbn [nth_error]. destruct (rest =? ""); reflexivity.
Qed.

(** [parseEndpoint] never indexes out of range. *)
Lemma parseEndpoint_total (ep : string) : parseEndpoint ep <> None.
Proof.
  destruct (recognized ep) eqn:H.
  - destruct (parseEndpoint_recognized ep H) as (scheme & rest & _ & _ & _ & ->).
    destruct (rest =? ""); discriminate.
  - unfold parseEndpoint. fold (recognized ep). rewrite H. discriminate.
Qed.

(** C4: an endpoint with a recognized prefix (in any case of letters) and
    nothing after its [://] is refused with the error
    [Invalid endpoint: <ep>], which names the endpoint as it was given. *)
Theorem parseEndpoint_empty_remainder (ep : string) :
  recognized ep = true -> remainder ep = Some "" ->
  parseEndpoint ep = Some ("", "", Some (Errorf "Invalid endpoint: %v" [a_string ep])).
Proof.
  intros H R.
  destruct (parseEndpoint_recognized ep H) as (scheme & rest & _ & _ & R' & ->).
  rewrite R in R'. injection R' as <-. reflexivity.
Qed.

(** C5: an endpoint without a recognized prefix resolves, unchanged, to an
    address of the transport kind filesystem-socket. *)
Theorem parseEndpoint_unrecognized (ep : string) :
  recognized ep = false ->
  parseEndpoint ep = Some ("unix", ep, None) /\
  kind_of "unix" = Some filesystem_socket.
Proof.
  intros H. unfold parseEndpoint. fold (recognized ep). rewrite H. now split.
Qed.


(** The address is what follows the first [://]; the protocol is the prefix
    as it was written. *)
Lemma parseEndpoint_remainder (ep : string) :
  recognized ep = true ->
  forall rest, remainder ep = Some rest -> rest <> "" ->
  exists scheme, ep = scheme ++ "://" ++ rest /\ parseEndpoint ep = Some (scheme, rest, None).
Proof.
  intros H rest R Hne.
  destruct (parseEndpoint_recognized ep H) as (scheme & rest' & E & _ & R' & P).
  rewrite R in R'. injection R' as <-. exists scheme. split; [assumption|].
  rewrite P. destruct (rest =? "") eqn:E0; [|reflexivity].
  apply String.eqb_eq in E0. contradiction.
Qed.

(** With the prefix in lower case the endpoint resolves to the kind and the
    address that the specification expects. *)
Theorem parseEndpoint_lower_case_scheme (rest : string) :
  rest <> "" ->
  parseEndpoint ("unix://" ++ rest)%string = Some ("unix", rest, None)
  /\ parseEndpoint ("tcp://" ++ rest)%string = Some ("tcp", rest, None)
  /\ kind_of "unix" = Some filesystem_socket
  /\ kind_of "tcp" = Some network_stream.
Proof.
  intros H. apply String.eqb_neq in H.
  assert (U : recognized ("unix://" ++ rest)%string = true).
  { unfold recognized. rewrite ToLower_Map, (ToLower_ascii_app "unix://" rest eq_refl).
    change (lower_bytes "unix://") with "unix://". now rewrite HasPrefix_refl_app. }
  assert (T : recognized ("tcp://" ++ rest)%string = true).
  { unfold recognized. rewrite ToLower_Map, (ToLower_ascii_app "tcp://" rest eq_refl).
    change (lower_bytes "tcp://") with "tcp://". rewrite HasPrefix_refl_app. apply orb_true_r. }
  repeat split.
  - unfold parseEndpoint. fold (recognized ("unix://" ++ rest)%string). rewrite U.
    change ("unix://" ++ rest)%string with ("unix" ++ "://" ++ rest)%string.
    rewrite (SplitN_scheme "unix" rest eq_refl). cbn [nth_error]. now rewrite H.
  - unfold parseEndpoint. fold (recognized ("tcp://" ++ rest)%string). rewrite T.
    change ("tcp://" ++ rest)%string with ("tcp" ++ "://" ++ rest)%string.
    rewrite (SplitN_scheme "tcp" rest eq_refl). cbn [nth_error]. now rewrite H.
Qed.

(** C3 (the code departs from the claim): an endpoint whose prefix is written
    in upper case is recognized, and its address is the remainder after
    [://], but the protocol that [parseEndpoint] returns is the prefix as it
    was written, ["UNIX"].  That is no transport kind: [listen] compares the
    protocol with ["unix"] exactly, and [net.Listen] knows no network
    ["UNIX"], so the process that is given this endpoint acquires no
    listener and exits with status 1. *)
Theorem upper_case_scheme_is_not_resolved :
  recognized "UNIX:///tmp/a.sock" = true
  /\ remainder "UNIX:///tmp/a.sock" = Some "/tmp/a.sock"
  /\ parseEndpoint "UNIX:///tmp/a.sock" = Some ("UNIX", "/tmp/a.sock", None)
  /\ kind_of "UNIX" = None
  /\ (let r := run Sim.no_flags Sim.upper_case in
      fst r = Exit 1
      /\ acquired (trace (snd r)) = []
      /\ net_listens (trace (snd r)) =
           [("UNIX", "/tmp/a.sock",
             Some (external_error "listen UNIX /tmp/a.sock: unknown network UNIX" false))]).
Proof. vm_compute. repeat split. Qed.

(** The scheme of a recognized endpoint is [unix] or [tcp] when it is
    lowered. *)
Lemma recognized_scheme_lowered (ep : string) :
  recognized ep = true ->
  exists scheme rest,
    ep = scheme ++ "://" ++ rest /\ colon_free scheme = true
    /\ (ToLower scheme = "unix" \/ ToLower scheme = "tcp").
Proof.
  unfold recognized. intros H. apply orb_true_iff in H as [H|H];
    apply HasPrefix_app in H as [t H]; rewrite ToLower_Map in H.
  - destruct (lowered_prefix_exact "unix" eq_refl eq_refl ep ("://" ++ t) H)
      as (scheme & s' & -> & Hs' & Hs & Hx).
    destruct (lowered_separator s' t Hs') as (rest & -> & _).
    exists scheme, rest. split; [reflexivity|]. split; [assumption|]. left.
    rewrite ToLower_Map. specialize (Hx ""). now rewrite string_app_empty_r in Hx.
  - destruct (lowered_prefix_exact "tcp" eq_refl eq_refl ep ("://" ++ t) H)
      as (scheme & s' & -> & Hs' & Hs & Hx).
    destruct (lowered_separator s' t Hs') as (rest & -> & _).
    exists scheme, rest. split; [reflexivity|]. split; [assumption|]. right.
    rewrite ToLower_Map. specialize (Hx ""). now rewrite string_app_empty_r in Hx.
Qed.

(** A scheme that is [unix] or [tcp] in any case of its letters is
    recognized. *)
Lemma recognized_as_written (scheme rest : string) :
  lower_bytes scheme = "unix" \/ lower_bytes scheme = "tcp" ->
  recognized (scheme ++ "://" ++ rest) = true /\ colon_free scheme = true.
Proof.
  intros H.
  assert (A : isASCII scheme = true)
    by (apply lower_bytes_isASCII; destruct H as [-> | ->]; reflexivity).
  assert (C : colon_free scheme = true)
    by (apply lower_bytes_colon_free; destruct H as [-> | ->]; reflexivity).
  split; [|assumption].
  unfold recognized. rewrite ToLower_Map, (ToLower_ascii_app scheme _ A).
  rewrite (ToLower_ascii_app "://" rest eq_refl).
  change (lower_bytes "://") with "://".
  destruct H as [-> | ->].
  - change ("unix" ++ "://" ++ Map unicode_ToLower rest)
      with ("unix://" ++ Map unicode_ToLower rest).
    now rewrite HasPrefix_refl_app.
  - change ("tcp" ++ "://" ++ Map unicode_ToLower rest)
      with ("tcp://" ++ Map unicode_ToLower rest).
    rewrite HasPrefix_refl_app. apply orb_true_r.
Qed.

(** X1: [parseEndpoint] returns for every string: the indices [s[1]] and
    [s[0]] are never out of range, because a string whose lowered form
    starts with [unix://] or [tcp://] holds [://] itself, so that
    [strings.SplitN] cuts it in two. *)
Theorem parseEndpoint_never_panics (ep : string) :
  exists proto addr err, parseEndpoint ep = Some (proto, addr, err).
Proof.
  destruct (parseEndpoint ep) as [[[proto addr] err]|] eqn:E.
  - now exists proto, addr, err.
  - now destruct (parseEndpoint_total ep).
Qed.

(** X2: what [parseEndpoint] returns without an error gives the endpoint
    back.  Either the endpoint is recognized, and then it is the protocol,
    [://] and the address; the address is not empty, and the protocol holds
    no colon (the endpoint was cut at its first [://]) and is [unix] or
    [tcp] when it is lowered.  Or the endpoint is not recognized, and then
    the protocol is [unix] and the address is the endpoint. *)
Theorem parseEndpoint_round_trip (ep proto addr : string) :
  parseEndpoint ep = Some (proto, addr, None) ->
  (recognized ep = true /\ ep = proto ++ "://" ++ addr /\ addr <> ""
   /\ colon_free proto = true
   /\ (ToLower proto = "unix" \/ ToLower proto = "tcp"))
  \/ (recognized ep = false /\ proto = "unix" /\ addr = ep).
Proof.
  intros H. destruct (recognized ep) eqn:R.
  - left. destruct (recognized_scheme_lowered ep R) as (scheme & rest & E & C & L).
    unfold parseEndpoint in H. fold (recognized ep) in H. rewrite R in H.
    rewrite E, (SplitN_scheme scheme rest C) in H. cbn [nth_error] in H.
    destruct (rest =? "") eqn:E0; [discriminate H|].
    injection H as <- <-. apply String.eqb_neq in E0. auto.
  - right. unfold parseEndpoint in H. fold (recognized ep) in H. rewrite R in H.
    injection H as <- <-. auto.
Qed.

(** X3: the only error of [parseEndpoint] is [Invalid endpoint: <ep>], and
    it is returned only for a recognized endpoint with nothing after its
    [://]; the protocol and the address that come with it are empty. *)
Theorem parseEndpoint_only_error (ep proto addr : string) (err : error) :
  parseEndpoint ep = Some (proto, addr, Some err) ->
  proto = "" /\ addr = ""
  /\ err = Errorf "Invalid endpoint: %v" [a_string ep]
  /\ recognized ep = true /\ remainder ep = Some ""
  /\ exists scheme, ep = scheme ++ "://".
Proof.
  intros H. destruct (recognized ep) eqn:R.
  - destruct (parseEndpoint_recognized ep R) as (scheme & rest & E & C & Hr & P).
    rewrite P in H. destruct (rest =? "") eqn:E0; [|discriminate H].
    apply String.eqb_eq in E0. subst rest.
    injection H as <- <- <-. repeat split; try assumption. now exists scheme.
  - unfold parseEndpoint in H. fold (recognized ep) in H. rewrite R in H. discriminate H.
Qed.

(** X4: the protocol that [parseEndpoint] returns is the scheme as it was
    written.  For a scheme that is [unix] or [tcp] in any mix of upper and
    lower case, followed by [://] and a remainder that is not empty, the
    result is that very scheme with the remainder; unless the scheme is
    written in lower case it names no transport kind. *)
Theorem parseEndpoint_keeps_the_case (scheme rest : string) :
  lower_bytes scheme = "unix" \/ lower_bytes scheme = "tcp" ->
  rest <> "" ->
  parseEndpoint (scheme ++ "://" ++ rest) = Some (scheme, rest, None)
  /\ (scheme <> "unix" -> scheme <> "tcp" -> kind_of scheme = None).
Proof.
  intros H Hr. destruct (recognized_as_written scheme rest H) as [R C].
  split.
  - unfold parseEndpoint. fold (recognized (scheme ++ "://" ++ rest)). rewrite R.
    rewrite (SplitN_scheme scheme rest C). cbn [nth_error].
    apply String.eqb_neq in Hr. now rewrite Hr.
  - intros Hu Ht. unfold kind_of.
    apply String.eqb_neq in Hu, Ht. now rewrite Hu, Ht.
Qed.


End Endpoint.

(** ** Runs of the program *)

Local Open Scope list_scope.

(** Symbolic execution of the program: the monad is unfolded and every
    answer of the environment is split into its cases. *)
Ltac exec_cbv :=
  cbv beta iota zeta delta
      [run main main_combined main_split load_hooks parseHooksFile listen
       listen_body wait_for_signal func exit_on deref klog_Exitf klog os_Remove
       net_Listen os_Open ioutil_ReadAll File_Close Driver_Start Driver_Stop
       bind ret emit call os_Exit block panic os_Getenv call_Func
       run_Deferred run_all set_deferred defer
       world deferred trace fst snd err_of negb];
  cbn [app].

Ltac exec_case :=
  match goal with
  | |- context [match parseEndpoint ?ep with _ => _ end] =>
      let E := fresh "Eparse" in
      destruct (parseEndpoint ep) as [[[? ?] [?|]]|] eqn:E;
      [| | exfalso; exact (parseEndpoint_total ep E)]
  | |- context [Remove ?n ?w] => destruct (Remove n w) as [[?|] ?] eqn:?
  | |- context [Listen ?n ?a ?w] => destruct (Listen n a w) as [[?|] ?] eqn:?
  | |- context [Open ?n ?w] => destruct (Open n w) as [[?|] ?] eqn:?
  | |- context [ReadAll ?f ?w] => destruct (ReadAll f w) as [[?|?] ?] eqn:?
  | |- context [UnmarshalStrict ?b] => destruct (UnmarshalStrict b) as [?|?] eqn:?
  | |- context [Start ?d ?l ?w] => destruct (Start d l w) as [[?|] ?] eqn:?
  | |- context [Receive ?s ?w] => destruct (Receive s w) as [[?|] ?] eqn:?
  | |- context [match ?f with func_nop => _ | func_Remove _ => _ end] => destruct f
  | |- context [if ?b then _ else _] => destruct b eqn:?
  end.

Ltac exec := exec_cbv; repeat (exec_case; exec_cbv).

Ltac but_last l :=
  lazymatch l with
  | [?x] => let T := type of x in constr:(@nil T)
  | ?a :: ?r => let r' := but_last r in constr:(a :: r')
  end.

Ltac split_trace tr :=
  rewrite <- ?app_assoc; cbn [app];
  match goal with
  | |- exists c w' th,
        (Done ?c0, {| world := ?w0; deferred := _; trace := ?t |}) = _ /\ _ =>
      lazymatch t with
      | (tr ++ ?th)%list => exists c0, w0, th
      | tr => exists c0, w0, nil; rewrite app_nil_r
      end
  end.

Section Runs.
Context {Hooks W : Type} {world_ops : World Hooks W}.

Lemma length_0_eqb (s : string) : (String.length s =? 0)%nat = (s =? "").
Proof. now destruct s. Qed.

Lemma listen_run (endpoint : string) (p : Proc Hooks) :
  exists r w' io,
    listen endpoint p =
      (Done r, {| world := w'; deferred := deferred p;
                  trace := trace p ++ io
                           ++ [ev_listen endpoint (fst (fst r)) (snd (fst r)) (snd r)] |})
    /\ forallb is_io io = true
    /\ (snd r = None -> exists l f, r = (Some l, Some f, None)).
Proof.
  destruct p as [w ds tr].
  exec; rewrite <- ?app_assoc; cbn [app];
    match goal with
    | |- exists r w' io,
          (Done ?r0, {| world := ?w0; deferred := _; trace := tr ++ ?t |}) = _ /\ _ =>
        let io := but_last t in
        exists r0, w0, io
    end;
    (split; [reflexivity|]); (split; [reflexivity|]);
    cbn [fst snd]; intros H; try discriminate H; eauto.
Qed.

Lemma load_hooks_run (config : Config Hooks) (file : string) (p : Proc Hooks) :
  exists config' w' th,
    load_hooks config file p =
      (Done config', {| world := w'; deferred := deferred p; trace := trace p ++ th |})
    /\ forallb is_hooks_event th = true
    /\ (hooks_error file (world p) <> None \/ file = "" -> config' = config).
Proof.
  destruct p as [w ds tr]. unfold hooks_error.
  exec; split_trace tr;
    (split; [reflexivity|]); (split; [reflexivity|]); cbn [world];
    repeat match goal with
           | H : _ = _ |- _ => rewrite H
           end;
    try reflexivity.
  all: intros [H|H]; [congruence | subst file; discriminate].
Qed.

Lemma main_eq (flags : Flags) (p : Proc Hooks) :
  main flags p =
  func (bind (load_hooks (config_of flags) (hooks_file flags))
             (fun config =>
                bind (emit (ev_service_New config))
                     (fun _ =>
                        if primary (world p) =? secondary (world p)
                        then main_combined (service_New config) (primary (world p))
                        else main_split (service_New config) (primary (world p))
                                        (secondary (world p))))) p.
Proof.
  unfold main, func, primary, secondary.
  cbn [bind os_Getenv set_deferred world]. rewrite length_0_eqb.
  reflexivity.
Qed.

Lemma collect_app {X : Type} (pick : Event Hooks -> option X) (a b : list (Event Hooks)) :
  collect pick (a ++ b) = collect pick a ++ collect pick b.
Proof.
  induction a as [|e a IH]; [reflexivity|].
  cbn [app collect]. destruct (pick e); cbn [app]; now rewrite IH.
Qed.

Lemma collect_none {X : Type} (pick : Event Hooks -> option X) (keep : Event Hooks -> bool)
      (seg : list (Event Hooks)) :
  (forall e, keep e = true -> pick e = None) ->
  forallb keep seg = true -> collect pick seg = [].
Proof.
  intros Hp. induction seg as [|e seg IH]; intros H; [reflexivity|].
  cbn [forallb] in H. apply andb_true_iff in H as [He Hs].
  cbn [collect]. rewrite (Hp e He). now apply IH.
Qed.

Lemma since_signal_skip (keep : Event Hooks -> bool) (seg rest : list (Event Hooks)) :
  (forall e, keep e = true -> forall l, since_signal (e :: l) = since_signal l) ->
  forallb keep seg = true -> since_signal (seg ++ rest) = since_signal rest.
Proof.
  intros Hk. induction seg as [|e seg IH]; intros H; [reflexivity|].
  cbn [forallb] in H. apply andb_true_iff in H as [He Hs].
  cbn [app]. rewrite (Hk e He). now apply IH.
Qed.

Lemma load_hooks_failed (config : Config Hooks) (file : string) (p : Proc Hooks)
      (err : error) :
  file <> "" -> hooks_error file (world p) = Some err ->
  exists w' fio,
    load_hooks config file p =
      (Done config,
       {| world := w'; deferred := deferred p;
          trace := trace p ++ fio
                   ++ [ev_klog ERROR "Failed to load hooks file %s: %v"
                               [a_string file; an_error err]] |})
    /\ forallb is_file_event fio = true.
Proof.
  intros Hf. apply String.eqb_neq in Hf.
  destruct p as [w ds tr]. unfold hooks_error. cbn [world].
  unfold load_hooks. rewrite Hf. cbn [negb].
  exec; intros [= <-]; rewrite <- ?app_assoc; cbn [app];
    match goal with
    | |- exists w' fio, (_, {| world := ?w0; deferred := _; trace := tr ++ ?t |}) = _ /\ _ =>
        let fio := but_last t in
        exists w0, fio
    end; split; reflexivity.
Qed.


(** C7: for an endpoint of the kind filesystem-socket, [listen] first calls
    [os.Remove] on the path of the socket.  When the removal fails with an
    error other than "file does not exist", [listen] returns the error
    [<path>: <cause>] and makes no attempt to bind; when the removal
    succeeds or fails with "file does not exist", [listen] goes on to
    [net.Listen] on the path and returns what it gives, with the cleanup
    that removes the path. *)
Theorem listen_removes_stale_socket (endpoint addr : string) (p : Proc Hooks) :
  parseEndpoint endpoint = Some ("unix", addr, None) ->
  let path := ("/" ++ addr)%string in
  let rm := fst (Remove path (world p)) in
  let w1 := snd (Remove path (world p)) in
  (exists rest, trace (snd (listen_body endpoint p)) = trace p ++ ev_Remove path rm :: rest)
  /\ (forall err, rm = Some err -> IsNotExist err = false ->
        listen_body endpoint p =
          (Done (None, None, Some (Errorf "%s: %q" [a_string path; an_error err])),
           {| world := w1; deferred := deferred p;
              trace := trace p ++ [ev_Remove path rm] |}))
  /\ (rm = None \/ (exists err, rm = Some err /\ IsNotExist err = true) ->
        let lr := fst (Listen "unix" path w1) in
        listen_body endpoint p =
          (Done (match lr with
                 | None => Some {| network := "unix"; address := path |}
                 | Some _ => None
                 end, Some (func_Remove path), lr),
           {| world := snd (Listen "unix" path w1); deferred := deferred p;
              trace := trace p ++ [ev_Remove path rm; ev_Listen "unix" path lr] |})).
Proof.
  intros Hparse. cbv zeta. destruct p as [w ds tr]. cbn [world trace deferred].
  unfold listen_body. rewrite Hparse. cbn [String.eqb Ascii.eqb Bool.eqb].
  exec_cbv.
  destruct (Remove ("/" ++ addr)%string w) as [[err|] w1] eqn:R; cbn [fst snd].
  - destruct (IsNotExist err) eqn:N; exec_cbv.
    + destruct (Listen "unix" ("/" ++ addr)%string w1) as [[e|] w2] eqn:L; exec_cbv;
        cbn [fst snd]; rewrite <- ?app_assoc; cbn [app];
        (split; [eexists; reflexivity|]);
        (split; [intros err' [= <-]; congruence|]); intros _; reflexivity.
    + rewrite <- ?app_assoc; cbn [app].
      split; [eexists; reflexivity|].
      split; [intros err' [= <-] _; reflexivity|].
      intros [H|(err' & [= <-] & H)]; congruence.
  - destruct (Listen "unix" ("/" ++ addr)%string w1) as [[e|] w2] eqn:L; exec_cbv;
      cbn [fst snd]; rewrite <- ?app_assoc; cbn [app];
      (split; [eexists; reflexivity|]);
      (split; [intros err' [=]|]); intros _; reflexivity.
Qed.

Lemma creds_enabled_true (s : string) : creds_enabled s = (s =? "true")%string.
Proof. unfold creds_enabled. destruct s; reflexivity. Qed.

(** The statement of [main] that loads the hooks, in full: the
    configuration after it, the file events, and the environment. *)
Lemma load_hooks_exact (config : Config Hooks) (file : string) (p : Proc Hooks) :
  exists config' w' th,
    load_hooks config file p =
      (Done config',
       {| world := w'; deferred := deferred p; trace := trace p ++ th |})
    /\ config' = (if file =? "" then config
                  else match hooks_loaded file (world p) with
                       | Some h => set_ExecHooks config (Some h)
                       | None => config
                       end)%string
    /\ forallb is_hooks_event th = true
    /\ open_calls th = (if file =? "" then [] else [file])%string
    /\ closed th = opened th
    /\ (forall key, keeps_env key -> Getenv key w' = Getenv key (world p)).
Proof.
  destruct p as [w ds tr]. unfold hooks_loaded. cbn [world].
  unfold load_hooks. destruct (file =? "")%string; cbn [negb].
  - exec_cbv. exists config, w, []. rewrite app_nil_r. repeat split.
  - exec; rewrite <- ?app_assoc; cbn [app]; do 3 eexists;
      (split; [reflexivity|]); repeat split;
      intros key K.
    all: repeat match goal with
                | H : Open ?n ?w = (_, ?w') |- _ =>
                    let E := fresh in
                    assert (E : Getenv key w' = Getenv key w)
                      by (destruct (K w) as (K1 & _ & _); rewrite <- (K1 n), H; reflexivity);
                    clear H
                | H : ReadAll ?f ?w = (_, ?w') |- _ =>
                    let E := fresh in
                    assert (E : Getenv key w' = Getenv key w)
                      by (destruct (K w) as (_ & K2 & _); rewrite <- (K2 f), H; reflexivity);
                    clear H
                end.
    all: repeat match goal with
                | |- context [Close ?f ?w] =>
                    let E := fresh in
                    destruct (K w) as (_ & _ & E); rewrite (E f); clear E
                end.
    all: congruence.
Qed.

Lemma listen_invalid_run (endpoint proto addr : string) (err : error) (p : Proc Hooks) :
  parseEndpoint endpoint = Some (proto, addr, Some err) ->
  listen endpoint p =
    (Done (None, None, Some err),
     {| world := world p; deferred := deferred p;
        trace := trace p ++ [ev_listen endpoint None None (Some err)] |}).
Proof.
  intros Hparse. destruct p as [w ds tr]. unfold listen, listen_body. rewrite Hparse.
  exec_cbv. reflexivity.
Qed.

Lemma listen_unix_io (endpoint addr : string) (p : Proc Hooks) :
  parseEndpoint endpoint = Some ("unix", addr, None) ->
  let path := ("/" ++ addr)%string in
  exists r w' io,
    listen endpoint p =
      (Done r, {| world := w'; deferred := deferred p;
                  trace := trace p ++ io
                           ++ [ev_listen endpoint (fst (fst r)) (snd (fst r)) (snd r)] |})
    /\ forallb is_io io = true
    /\ removed io = [path]
    /\ ((net_listens io = [] /\ snd r <> None) \/ net_listens io = [("unix", path, snd r)])
    /\ (snd r = None ->
        r = (Some {| network := "unix"; address := path |}, Some (func_Remove path), None)).
Proof.
  intros Hparse. cbv zeta. destruct p as [w ds tr].
  unfold listen, listen_body. rewrite Hparse. cbn [String.eqb Ascii.eqb Bool.eqb].
  exec; rewrite <- ?app_assoc; cbn [app];
    match goal with
    | |- exists r w' io,
          (Done ?r0, {| world := ?w0; deferred := _; trace := tr ++ ?t |}) = _ /\ _ =>
        let io := but_last t in
        exists r0, w0, io
    end;
    (split; [reflexivity|]); (split; [reflexivity|]); (split; [reflexivity|]); cbn [fst snd];
    (split; [first [right; reflexivity | left; split; [reflexivity|discriminate]]|]);
    intros H; first [discriminate H | reflexivity].
Qed.

Lemma from_first_cleanup_skip (keep : Event Hooks -> bool) (seg rest : list (Event Hooks)) :
  (forall e, keep e = true -> forall l, from_first_cleanup (e :: l) = from_first_cleanup l) ->
  forallb keep seg = true -> from_first_cleanup (seg ++ rest) = from_first_cleanup rest.
Proof.
  intros Hk. induction seg as [|e seg IH]; intros H; [reflexivity|].
  cbn [forallb] in H. apply andb_true_iff in H as [He Hs].
  cbn [app]. rewrite (Hk e He). now apply IH.
Qed.

(** X5: [listen] returns for every endpoint, and leaves the deferred calls
    of its caller alone.  With an error it returns no listener.  Without
    an error it returns a listener and the cleanup that goes with it: for
    a listener on the network [unix], the removal of the very path the
    listener is bound to, which starts with [/]; for any other listener,
    the function that does nothing. *)
Theorem listen_returns (endpoint : string) (p : Proc Hooks) :
  exists l cleanup err p',
    listen_body endpoint p = (Done (l, cleanup, err), p')
    /\ deferred p' = deferred p
    /\ match err with
       | Some _ => l = None
       | None =>
           exists lis,
             l = Some lis
             /\ cleanup = Some (if (network lis =? "unix")%string
                                then func_Remove (address lis) else func_nop)
             /\ (network lis = "unix"%string -> HasPrefix (address lis) "/" = true)
       end.
Proof.
  destruct p as [w ds tr]. unfold listen_body.
  destruct (parseEndpoint endpoint) as [[[proto addr] [err|]]|] eqn:Hparse;
    [| |exfalso; exact (parseEndpoint_total endpoint Hparse)].
  - exec_cbv. do 4 eexists. split; [reflexivity|]. split; reflexivity.
  - destruct (proto =? "unix")%string eqn:U.
    + apply String.eqb_eq in U. subst proto.
      exec; do 4 eexists; (split; [reflexivity|]); (split; [reflexivity|]);
        try reflexivity;
        eexists; (split; [reflexivity|]);
        (split; [reflexivity|intros _; cbn [address]; destruct addr; reflexivity]).
    + exec; do 4 eexists; (split; [reflexivity|]); (split; [reflexivity|]);
        try reflexivity;
        eexists; (split; [reflexivity|]); cbn [network address]; rewrite U;
        (split; [reflexivity|]); intros ->; discriminate U.
Qed.

(** X6: for an endpoint whose protocol is not [unix], [listen] touches no
    file: it calls [net.Listen] with the protocol and the address as
    [parseEndpoint] gave them, and nothing else; it returns what
    [net.Listen] gave, with the cleanup that does nothing. *)
Theorem listen_other_protocol (endpoint proto addr : string) (p : Proc Hooks) :
  parseEndpoint endpoint = Some (proto, addr, None) -> proto <> "unix"%string ->
  let lr := fst (Listen proto addr (world p)) in
  listen_body endpoint p =
    (Done (match lr with
           | None => Some {| network := proto; address := addr |}
           | Some _ => None
           end, Some func_nop, lr),
     {| world := snd (Listen proto addr (world p)); deferred := deferred p;
        trace := trace p ++ [ev_Listen proto addr lr] |}).
Proof.
  intros Hparse Hu. apply String.eqb_neq in Hu. cbv zeta.
  destruct p as [w ds tr]. unfold listen_body. rewrite Hparse, Hu.
  exec_cbv. destruct (Listen proto addr w) as [[e|] w']; reflexivity.
Qed.

(** X8: [parseHooksFile] returns the hooks or an error, never both and
    never neither: the hooks when the file could be opened, read and
    decoded, and otherwise the error of the first of these steps that
    failed.  The deferred calls of its caller are left alone. *)
Theorem parseHooksFile_result (file : string) (p : Proc Hooks) :
  fst (parseHooksFile file p) =
    Done (hooks_loaded file (world p), hooks_error file (world p))
  /\ (hooks_loaded file (world p) = None <-> hooks_error file (world p) <> None)
  /\ deferred (snd (parseHooksFile file p)) = deferred p.
Proof.
  destruct p as [w ds tr]. unfold hooks_loaded, hooks_error. cbn [world].
  exec; cbn [fst snd deferred]; repeat split; intros; try discriminate; try congruence.
Qed.

(** X9: [parseHooksFile] opens the file once.  When the file was opened it
    is closed exactly once, by the deferred call, as the last thing the
    function does, whether or not reading and decoding succeed; when it
    was not opened nothing is closed. *)
Theorem parseHooksFile_closes_the_file (file : string) (p : Proc Hooks) :
  exists th,
    trace (snd (parseHooksFile file p)) = trace p ++ th
    /\ open_calls th = [file]
    /\ closed th = opened th
    /\ forall fr, In fr (opened th) ->
         fr = {| file_name := file |}
         /\ exists before, th = before ++ [ev_deferred (defer_Close fr); ev_Close fr].
Proof.
  destruct p as [w ds tr].
  exec; cbn [snd trace]; rewrite <- ?app_assoc; cbn [app];
    eexists; (split; [reflexivity|]); (split; [reflexivity|]); (split; [reflexivity|]);
    cbn [opened collect In]; intros fr Hin;
    first [destruct Hin as [<-|[]]; (split; [reflexivity|]) | destruct Hin].
  - eexists [_; _; _]. reflexivity.
  - eexists [_; _]. reflexivity.
  - eexists [_; _]. reflexivity.
Qed.


End Runs.

(** Symbolic execution of [main], with [listen] and [load_hooks] taken as
    wholes from [listen_run] and [load_hooks_run]. *)
Ltac ignored :=
  let e := fresh "e" in
  let H := fresh "H" in
  intros e; destruct e; intros H; cbn in H;
  repeat match goal with
         | H : match ?x with _ => _ end = true |- _ => destruct x
         end;
  first [intros; reflexivity | discriminate].

Ltac collect_norm :=
  unfold built, start_calls, started, stopped, listen_calls, acquired, cleanups_run;
  rewrite <- ?app_assoc; cbn [app];
  repeat first [rewrite collect_app | progress cbn [collect app]];
  repeat match goal with
         | H : forallb ?keep ?seg = true |- context [collect ?pick ?seg] =>
             rewrite (collect_none pick keep seg ltac:(ignored) H)
         end;
  cbn [app];
  repeat match goal with
         | |- context [match ?o with Some _ => _ | None => _ end] => is_var o; destruct o
         end.

Ltac run_cbv :=
  cbv beta iota zeta delta
      [run main_combined main_split wait_for_signal func exit_on deref klog_Exitf klog
       os_Remove Driver_Start Driver_Stop bind ret emit call os_Exit block panic
       os_Getenv call_Func run_Deferred run_all set_deferred defer
       world deferred trace fst snd];
  cbn [app].

Ltac run_case :=
  match goal with
  | |- context [load_hooks ?c ?f ?p] =>
      let E := fresh in
      let Hth := fresh "Hth" in
      let Hcfg := fresh "Hcfg" in
      destruct (load_hooks_run c f p) as (? & ? & ? & E & Hth & Hcfg);
      rewrite E; clear E
  | |- context [listen ?ep ?p] =>
      let E := fresh in
      let Hio := fresh "Hio" in
      let Hok := fresh "Hok" in
      let Hr := fresh in
      destruct (listen_run ep p) as ([[? ?] [?|]] & ? & ? & E & Hio & Hok);
      rewrite E; clear E; cbn [fst snd] in *;
      [clear Hok
      |destruct (Hok eq_refl) as (? & ? & Hr); injection Hr as -> ->; clear Hok]
  | |- context [Remove ?n ?w] => destruct (Remove n w) as [? ?] eqn:?
  | |- context [Start ?d ?l ?w] => destruct (Start d l w) as [[?|] ?] eqn:?
  | |- context [Receive ?s ?w] => destruct (Receive s w) as [[?|] ?] eqn:?
  | |- context [match ?f with func_nop => _ | func_Remove _ => _ end] => destruct f
  | |- context [if creds_enabled ?x then _ else _] => destruct (creds_enabled x) eqn:?
  end.

Ltac run_exec := run_cbv; repeat (run_case; run_cbv).

(** A statement about [run flags w] is proved by running the program once:
    the statement is set aside while the program is executed. *)
Ltac on_run flags w :=
  cbv zeta; pattern (run flags w);
  let Q := fresh "Q" in
  match goal with |- ?P _ => set (Q := P) end;
  unfold run; rewrite main_eq; cbn [world].

Ltac run_done :=
  match goal with Q := _ |- _ => subst Q end; cbv beta; cbn [fst snd trace].

Ltac since_norm :=
  rewrite <- ?app_assoc; cbn [app];
  repeat first
    [ progress cbn [since_signal]
    | match goal with
      | H : forallb ?keep ?seg = true |- context [since_signal (?seg ++ ?rest)] =>
          rewrite (since_signal_skip keep seg rest ltac:(ignored) H)
      end ].


(** As [run_case], with the statement that loads the hooks taken from
    [load_hooks_exact]. *)
Ltac run_case_hooks :=
  match goal with
  | |- context [load_hooks ?c ?f ?p] =>
      let E := fresh in
      let Hcfg := fresh "Hcfg" in
      let Hth := fresh "Hth" in
      let Hopen := fresh "Hopen" in
      let Hclosed := fresh "Hclosed" in
      let Henv := fresh "Henv" in
      destruct (load_hooks_exact c f p)
        as (? & ? & ? & E & Hcfg & Hth & Hopen & Hclosed & Henv);
      rewrite E; clear E
  | _ => run_case
  end.

(** As [run_case], for an endpoint that [parseEndpoint] refuses. *)
Ltac run_case_invalid Hparse :=
  match goal with
  | |- context [listen ?ep ?p] =>
      rewrite (listen_invalid_run ep _ _ _ p Hparse)
  | _ => run_case
  end.

(** As [run_case], for endpoints of sockets, with the files that [listen]
    removes. *)
Ltac run_case_io P1 P2 :=
  match goal with
  | |- context [listen ?ep ?p] =>
      let E := fresh in
      let Hio := fresh "Hio" in
      let Hrm := fresh "Hrm" in
      let Hnet := fresh "Hnet" in
      let Hok := fresh "Hok" in
      first [ destruct (listen_unix_io ep _ p P1)
                as ([[? ?] [?|]] & ? & ? & E & Hio & Hrm & Hnet & Hok)
            | destruct (listen_unix_io ep _ p P2)
                as ([[? ?] [?|]] & ? & ? & E & Hio & Hrm & Hnet & Hok) ];
      rewrite E; clear E; cbn [fst snd] in *;
      [clear Hok | injection (Hok eq_refl) as -> ->; clear Hok]
  | _ => run_case
  end.

Ltac cleanup_norm :=
  rewrite <- ?app_assoc; cbn [app];
  repeat first
    [ progress cbn [from_first_cleanup]
    | match goal with
      | H : forallb ?keep ?seg = true |- context [from_first_cleanup (?seg ++ ?rest)] =>
          rewrite (from_first_cleanup_skip keep seg rest ltac:(ignored) H)
      end ].

Section Topology.
Context {Hooks W : Type} {world_ops : World Hooks W}.

(** A run ends in one of three ways: normal exit, exit with status 1, or a
    wait for a signal that never comes.  No run panics: [parseEndpoint]
    never indexes out of range, and [main] uses the listener and the cleanup
    that [listen] returns only when [listen] returned no error. *)
Lemma run_outcome (flags : Flags) (w : W) :
  fst (run flags w) = Exit 0 \/ fst (run flags w) = Exit 1 \/ fst (run flags w) = Blocked.
Proof.
  on_run flags w.
  destruct (primary w =? secondary w); run_exec; run_done; auto.
Qed.

(** C2: when the primary endpoint and the secondary one (the primary one
    when the variable is unset or empty) are the same string, one member is
    built, serving identity, controller and node; [listen] is called once,
    for the primary endpoint; the member is started on no other listener
    than the one acquired there, and after a normal run it has been started
    on exactly that one. *)
Theorem combined_topology (flags : Flags) (w : W) :
  primary w = secondary w ->
  let tr := trace (snd (run flags w)) in
  map roles (built tr) = [all_roles]
  /\ listen_calls tr = [primary w]
  /\ (forall d l err, In (d, l, err) (start_calls tr) ->
        roles d = all_roles /\ exists f, acquired tr = [(primary w, l, f)])
  /\ (fst (run flags w) = Exit 0 ->
        exists d l f, started tr = [(d, l)] /\ acquired tr = [(primary w, l, f)]
                      /\ roles d = all_roles).
Proof.
  intros H. on_run flags w. rewrite <- H, String.eqb_refl.
  run_exec; run_done; collect_norm.
  all: repeat match goal with |- _ /\ _ => split end; try reflexivity;
    try (intros; discriminate).
  all: try (intros d' l' err' [Hin|[]]; injection Hin as ? ? ?; subst; split;
            [reflexivity|eexists; reflexivity]).
  all: try (intros _; do 3 eexists; repeat split; reflexivity).
  all: intros ? ? ? [].
Qed.

(** C1, as amended: when the primary and the secondary endpoint differ, two
    members are built, one serving identity and controller, one serving
    identity and node; the first is started only on a listener acquired for
    the secondary endpoint, the second only on a listener acquired for the
    primary endpoint, and after a normal run both have been. *)
Theorem split_topology (flags : Flags) (w : W) :
  primary w <> secondary w ->
  let tr := trace (snd (run flags w)) in
  map roles (built tr) = [[Identity; Controller]; [Identity; Node]]
  /\ (forall d l err, In (d, l, err) (start_calls tr) ->
        (roles d = [Identity; Controller] /\ exists f, In (secondary w, l, f) (acquired tr))
        \/ (roles d = [Identity; Node] /\ exists f, In (primary w, l, f) (acquired tr)))
  /\ (fst (run flags w) = Exit 0 ->
        bound tr [Identity; Controller] (secondary w)
        /\ bound tr [Identity; Node] (primary w)).
Proof.
  intros H. on_run flags w. apply String.eqb_neq in H. rewrite H.
  run_exec; run_done; unfold bound; collect_norm.
  all: repeat match goal with |- _ /\ _ => split end; try reflexivity;
    try (intros; discriminate).
  all: try (intros d' l' err' Hin; cbn [In] in Hin;
            repeat match goal with
                   | H : _ \/ _ |- _ => destruct H
                   | H : False |- _ => destruct H
                   | H : (_, _, _) = (_, _, _) |- _ => injection H as ? ? ?; subst
                   end;
            cbn [In];
            first [left; split; [reflexivity|eauto] | right; split; [reflexivity|eauto]]).
  all: intros _; split; do 3 eexists; cbn [In];
    [split; [left; reflexivity|split; [left; reflexivity|reflexivity]]
    |split; [right; left; reflexivity|split; [right; left; reflexivity|reflexivity]]].
Qed.

(** C8, as amended: when the process exits with status 0 (normal shutdown)
    the cleanup of every acquired listener has run exactly once, the last
    acquired first; when it exits with another status (a startup failure)
    no cleanup has run. *)
Theorem cleanup_at_exit (flags : Flags) (w : W) (code : Z) :
  fst (run flags w) = Exit code ->
  let tr := trace (snd (run flags w)) in
  cleanups_run tr = if (code =? 0)%Z then rev (map snd (acquired tr)) else [].
Proof.
  on_run flags w.
  destruct (primary w =? secondary w);
    run_exec; run_done; intros [= <-]; cbn [Z.eqb]; collect_norm; reflexivity.
Qed.

(** C10: when a signal is received from the channel, which is registered for
    SIGTERM, SIGHUP, SIGINT and SIGQUIT, the members stopped after the
    signal are exactly the members that were started, in the order of their
    start; none is started after the signal; then the process exits with
    status 0. *)
Theorem stop_on_signal (flags : Flags) (w : W) (sig : Signal) :
  let tr := trace (snd (run flags w)) in
  In sig (signals_received tr) ->
  fst (run flags w) = Exit 0
  /\ notified tr = [[SIGTERM; SIGHUP; SIGINT; SIGQUIT]]
  /\ stopped (since_signal tr) = map fst (started tr)
  /\ stopped tr = stopped (since_signal tr)
  /\ started (since_signal tr) = [].
Proof.
  on_run flags w.
  destruct (primary w =? secondary w);
    run_exec; run_done; since_norm; unfold signals_received, notified; collect_norm;
    intros Hin; try (now destruct Hin); repeat split.
Qed.


(** C9: when the flag [hooks-file] is set and the file cannot be opened, or
    read, or decoded, the events of the run are: the attempt on the file,
    the error logged, the service created from the configuration without
    hooks, and then the members and the listeners as in any other run. *)
Theorem hooks_failure_is_not_fatal (flags : Flags) (w : W) (err : error) :
  hooks_file flags <> "" ->
  hooks_error (hooks_file flags) w = Some err ->
  let tr := trace (snd (run flags w)) in
  let failure := ev_klog ERROR "Failed to load hooks file %s: %v"
                         [a_string (hooks_file flags); an_error err] in
  (exists fio rest,
      tr = fio ++ failure :: ev_service_New (config_of flags) :: rest
      /\ forallb is_file_event fio = true)
  /\ errors_logged tr = [("Failed to load hooks file %s: %v",
                          [a_string (hooks_file flags); an_error err])]
  /\ services tr = [config_of flags]
  /\ ExecHooks (@config_of Hooks flags) = None
  /\ built tr <> []
  /\ listen_calls tr <> [].
Proof.
  intros Hf He. on_run flags w.
  unfold func at 1. unfold bind at 1.
  destruct (load_hooks_failed (config_of flags) (hooks_file flags)
              (set_deferred [] {| world := w; deferred := []; trace := [] |}) err Hf He)
    as (w' & fio & E & Hfio).
  rewrite E. clear E.
  destruct (primary w =? secondary w).
  - run_exec; run_done; unfold errors_logged, services; collect_norm;
      (split; [rewrite <- ?app_assoc; cbn [app]; do 2 eexists; split; [reflexivity|assumption]|]);
      repeat split; discriminate.
  - run_exec; run_done; unfold errors_logged, services; collect_norm;
      (split; [rewrite <- ?app_assoc; cbn [app]; do 2 eexists; split; [reflexivity|assumption]|]);
      repeat split; discriminate.
Qed.

(** X7: when the first endpoint that [main] listens on (the secondary one,
    which is the primary one in the combined topology) is recognized and
    has nothing after its [://], the process exits with status 1.  The
    fatal message names the endpoint and the error [Invalid endpoint]; no
    file was removed, [net.Listen] was not called and no member was
    started. *)
Theorem invalid_endpoint_is_fatal (flags : Flags) (w : W) :
  recognized (secondary w) = true -> remainder (secondary w) = Some ""%string ->
  let tr := trace (snd (run flags w)) in
  let err := Errorf "Invalid endpoint: %v" [a_string (secondary w)] in
  fst (run flags w) = Exit 1
  /\ fatal_logged tr = [("Error: Unable to listen on %s socket: %v\n"%string,
                         [a_string (secondary w); an_error err])]
  /\ removed tr = [] /\ net_listens tr = [] /\ start_calls tr = [].
Proof.
  intros R E.
  assert (Hparse : parseEndpoint (secondary w) =
                   Some (""%string, ""%string,
                         Some (Errorf "Invalid endpoint: %v" [a_string (secondary w)]))).
  { destruct (parseEndpoint_recognized _ R) as (scheme & rest & _ & _ & R' & ->).
    rewrite E in R'. injection R' as <-. reflexivity. }
  on_run flags w.
  destruct (primary w =? secondary w)%string eqn:Eq.
  - apply String.eqb_eq in Eq. rewrite Eq.
    run_cbv; repeat (run_case_invalid Hparse; run_cbv); run_done;
      unfold fatal_logged, removed, net_listens; collect_norm; repeat split.
  - run_cbv; repeat (run_case_invalid Hparse; run_cbv); run_done;
      unfold fatal_logged, removed, net_listens; collect_norm; repeat split.
Qed.

(** X10: in every run [service.New] is called exactly once, with the
    configuration made of the flags and of the hooks: the hooks that were
    loaded, or none when the flag [hooks-file] is empty or the file could
    not be loaded.  The hooks file is opened only when the flag is set,
    and then once; what was opened has been closed, whatever the end of
    the run. *)
Theorem service_is_built_once (flags : Flags) (w : W) :
  let tr := trace (snd (run flags w)) in
  services tr = [set_ExecHooks (config_of flags) (hooks_of flags w)]
  /\ open_calls tr = (if hooks_file flags =? "" then [] else [hooks_file flags])%string
  /\ closed tr = opened tr.
Proof.
  on_run flags w.
  destruct (primary w =? secondary w)%string;
    run_cbv; repeat (run_case_hooks; run_cbv); run_done.
  all: unfold services, hooks_of, open_calls, closed, opened in *; cbn [world] in *.
  all: collect_norm; rewrite ?app_nil_r.
  all: split; [subst; destruct (hooks_file flags =? "")%string; [reflexivity|];
               destruct (hooks_loaded (hooks_file flags) w); reflexivity|].
  all: split; assumption.
Qed.

(** X11: the members of a run are built over one service, the one that
    [service.New] returned: it is the controller, the identity and the
    node server of the single member, or the controller and identity
    server of the first member and the node and identity server of the
    second. *)
Theorem members_share_the_service (flags : Flags) (w : W) :
  let tr := trace (snd (run flags w)) in
  exists config,
    services tr = [config]
    /\ let s := service_New config in
       built tr = if (primary w =? secondary w)%string
                  then [NewCSIDriver (CSIDriverServers s s s)]
                  else [NewCSIDriverController (CSIDriverControllerServer s s);
                        NewCSIDriverNode (CSIDriverNodeServer s s)].
Proof.
  on_run flags w.
  destruct (primary w =? secondary w)%string; run_exec; run_done;
    unfold services; collect_norm; eexists; split; reflexivity.
Qed.

(** X12: default credentials are set on every member when the variable
    [CSI_ENABLE_CREDS] is exactly [true], and on no member otherwise; a
    member is started with them or without them accordingly.  (The
    variable is read after the hooks file: the statement is for an
    environment that file operations do not change.) *)
Theorem credentials_only_when_true (flags : Flags) (w : W) :
  keeps_env "CSI_ENABLE_CREDS" ->
  let tr := trace (snd (run flags w)) in
  let on := (Getenv "CSI_ENABLE_CREDS" w =? "true")%string in
  creds_set tr = (if on then built tr else [])
  /\ (forall d l err, In (d, l, err) (start_calls tr) -> creds d = on).
Proof.
  intros K. on_run flags w.
  destruct (primary w =? secondary w)%string;
    run_cbv; repeat (run_case_hooks; run_cbv); run_done.
  all: match goal with
       | H : forall key, keeps_env key -> _ |- _ =>
           specialize (H _ K); cbn [world] in H
       end.
  all: match goal with
       | H : creds_enabled _ = _, E : Getenv _ _ = Getenv _ _ |- _ =>
           rewrite creds_enabled_true, E in H; rewrite H
       end.
  all: unfold creds_set; collect_norm.
  all: split; [reflexivity|].
  all: intros d l err Hin; cbn [In] in Hin;
       repeat match goal with
              | H : _ \/ _ |- _ => destruct H
              | H : False |- _ => destruct H
              | H : (_, _, _) = (_, _, _) |- _ => injection H as ? ? ?; subst
              end; reflexivity.
Qed.

(** X13: how a run ends.  With status 0, after exactly one signal was
    received and without a fatal message; or with status 1, without a
    signal, the fatal message being the last thing the program did and the
    only one; or never, the program having asked for a signal that does
    not come. *)
Theorem run_exit_status (flags : Flags) (w : W) :
  let r := run flags w in
  let tr := trace (snd r) in
  (fst r = Exit 0 /\ List.length (signals_received tr) = 1 /\ fatal_logged tr = [])
  \/ (fst r = Exit 1 /\ signals_received tr = []
      /\ exists f ops before, tr = before ++ [ev_klog FATAL f ops] /\ fatal_logged before = [])
  \/ (fst r = Blocked /\ signals_received tr = [] /\ fatal_logged tr = []
      /\ exists before, tr = before ++ [ev_receive None]).
Proof.
  on_run flags w.
  destruct (primary w =? secondary w)%string; run_exec; run_done.
  all: first
    [ left; split; [reflexivity|];
      unfold signals_received, fatal_logged; collect_norm; split; reflexivity
    | right; left; split; [reflexivity|];
      split; [unfold signals_received; collect_norm; reflexivity|];
      do 3 eexists; split; [reflexivity|];
      unfold fatal_logged; collect_norm; reflexivity
    | right; right; split; [reflexivity|];
      split; [unfold signals_received; collect_norm; reflexivity|];
      split; [unfold fatal_logged; collect_norm; reflexivity|];
      eexists; reflexivity ].
Qed.

(** X14: a run that exits with status 1 has stopped no member and has not
    registered for signals; at least one of its members was not started.
    A member that was started before the failure is left as it is. *)
Theorem startup_failure_stops_nothing (flags : Flags) (w : W) :
  fst (run flags w) = Exit 1 ->
  let tr := trace (snd (run flags w)) in
  stopped tr = [] /\ notified tr = []
  /\ List.length (started tr) < List.length (built tr).
Proof.
  on_run flags w.
  destruct (primary w =? secondary w)%string; run_exec; run_done;
    intros [=]; unfold notified; collect_norm; cbn [List.length]; repeat split; lia.
Qed.

(** X15: a run that waits for ever has started every member it built and
    has registered for the four signals; it has stopped no member and run
    no cleanup. *)
Theorem waits_until_signalled (flags : Flags) (w : W) :
  fst (run flags w) = Blocked ->
  let tr := trace (snd (run flags w)) in
  map roles (map fst (started tr)) = map roles (built tr)
  /\ notified tr = [[SIGTERM; SIGHUP; SIGINT; SIGQUIT]]
  /\ stopped tr = [] /\ cleanups_run tr = [].
Proof.
  on_run flags w.
  destruct (primary w =? secondary w)%string; run_exec; run_done;
    intros [=]; unfold notified; collect_norm; repeat split.
Qed.

(** X16: in the split topology [listen] is called for the secondary
    endpoint first.  It is called for the primary endpoint only after the
    member for the controller was started without an error; otherwise the
    process exits with status 1 with no member started. *)
Theorem split_startup_order (flags : Flags) (w : W) :
  primary w <> secondary w ->
  let tr := trace (snd (run flags w)) in
  (listen_calls tr = [secondary w] /\ started tr = [] /\ fst (run flags w) = Exit 1)
  \/ (listen_calls tr = [secondary w; primary w]
      /\ exists dc lc rest,
           start_calls tr = (dc, lc, None) :: rest /\ roles dc = [Identity; Controller]).
Proof.
  intros H. on_run flags w. apply String.eqb_neq in H. rewrite H.
  run_exec; run_done; collect_norm;
    first [ left; repeat split; reflexivity
          | right; split; [reflexivity|]; do 3 eexists; split; reflexivity ].
Qed.

(** X17: in a run that exits with status 0 a cleanup is run, no member is
    stopped once the first cleanup has begun, and the files removed after
    the signal are the paths of the sockets that were acquired, the last
    one first, and no other. *)
Theorem shutdown_order (flags : Flags) (w : W) :
  fst (run flags w) = Exit 0 ->
  let tr := trace (snd (run flags w)) in
  cleanups_run tr <> []
  /\ stopped (from_first_cleanup tr) = []
  /\ removed (since_signal tr) = socket_paths (rev (map snd (acquired tr))).
Proof.
  on_run flags w.
  destruct (primary w =? secondary w)%string; run_exec; run_done; intros [=].
  all: since_norm; cleanup_norm; unfold removed; collect_norm; repeat split; discriminate.
Qed.

(** X18: an endpoint without a recognized prefix (the empty endpoint of a
    process that was given none is one) is a path that [listen] puts a [/]
    before.  In the combined topology that path is the only file the run
    removes, once before listening and once more in the cleanup of a
    normal exit, and the only address it listens on. *)
Theorem bare_path_gets_a_slash (flags : Flags) (w : W) :
  recognized (primary w) = false -> primary w = secondary w ->
  let tr := trace (snd (run flags w)) in
  let path := ("/" ++ primary w)%string in
  removed tr = match fst (run flags w) with
               | Exit 0 => [path; path]
               | _ => [path]
               end
  /\ (net_listens tr = [] \/ exists err, net_listens tr = [("unix"%string, path, err)]).
Proof.
  intros R H.
  assert (Hparse : parseEndpoint (primary w) = Some ("unix"%string, primary w, None)).
  { unfold parseEndpoint. fold (recognized (primary w)). now rewrite R. }
  on_run flags w. rewrite <- H, String.eqb_refl.
  run_cbv; repeat (run_case_io Hparse Hparse; run_cbv).
  all: run_done; unfold net_listens, removed in *; collect_norm; rewrite ?app_nil_r.
  all: rewrite ?Hrm.
  all: split; [reflexivity|].
  all: destruct Hnet as [[-> _]| ->]; [left; reflexivity|right; eexists; reflexivity].
Qed.

(** X19: the topology is chosen by comparing the endpoints as strings.
    Two endpoints that differ as strings and resolve to the same socket
    give the split topology on one path: in a run that exits with status 0
    the member for the node was started on a listener at the very address
    of the listener of the member for the controller, after [listen]
    removed the file at that address a second time; the path is removed
    four times in all, and bound twice. *)
Theorem same_socket_is_bound_twice (flags : Flags) (w : W) (addr : string) :
  primary w <> secondary w ->
  parseEndpoint (primary w) = Some ("unix"%string, addr, None) ->
  parseEndpoint (secondary w) = Some ("unix"%string, addr, None) ->
  fst (run flags w) = Exit 0 ->
  let tr := trace (snd (run flags w)) in
  let socket := {| network := "unix"; address := ("/" ++ addr)%string |} in
  map (fun s => (roles (fst s), snd s)) (started tr) =
    [([Identity; Controller], socket); ([Identity; Node], socket)]
  /\ removed tr = [address socket; address socket; address socket; address socket]
  /\ net_listens tr = [("unix"%string, address socket, None);
                       ("unix"%string, address socket, None)].
Proof.
  intros H P1 P2. on_run flags w. apply String.eqb_neq in H. rewrite H.
  run_cbv; repeat (run_case_io P1 P2; run_cbv).
  all: run_done; intros [=].
  all: unfold removed, net_listens in *; collect_norm; rewrite ?app_nil_r.
  all: repeat match goal with
              | H : collect _ ?io = _ |- context [collect _ ?io] => rewrite H
              | H : _ \/ _ |- _ => destruct H as [[_ Hc]|H]; [now contradiction Hc|]
              end.
  all: cbn [app map fst snd roles servers address NewCSIDriverController NewCSIDriverNode
            SetDefaultCreds].
  all: repeat split.
Qed.


(** X20: when a call of [Start] returns an error the process exits with
    status 1: that call is the last call of [Start] and the only one that
    failed, and the fatal message is the one for the member that did not
    start, with the error. *)
Theorem start_failure_is_fatal (flags : Flags) (w : W) (d : Driver Hooks) (err : error) :
  let tr := trace (snd (run flags w)) in
  In (d, err) (start_failures tr) ->
  fst (run flags w) = Exit 1
  /\ start_failures tr = [(d, err)]
  /\ fatal_logged tr = [(start_failure_message d, [an_error err])]
  /\ exists before l, start_calls tr = before ++ [(d, l, Some err)].
Proof.
  on_run flags w.
  destruct (primary w =? secondary w)%string; run_exec; run_done;
    unfold start_failures, fatal_logged; collect_norm; intros Hin;
    try (now destruct Hin);
    destruct Hin as [Hin|[]]; injection Hin as <- <-;
    repeat split; first [ exists []; eexists; reflexivity | eexists [_]; eexists; reflexivity ].
Qed.

(** X21: when a call of [listen] returns an error the process exits with
    status 1: that call is the last call of [listen] and the only one that
    failed, and the fatal message names the endpoint as it was given,
    with the error. *)
Theorem listen_failure_is_fatal (flags : Flags) (w : W) (ep : string) (err : error) :
  let tr := trace (snd (run flags w)) in
  In (ep, err) (listen_failures tr) ->
  fst (run flags w) = Exit 1
  /\ listen_failures tr = [(ep, err)]
  /\ fatal_logged tr = [("Error: Unable to listen on %s socket: %v\n"%string,
                         [a_string ep; an_error err])]
  /\ exists before, listen_calls tr = before ++ [ep].
Proof.
  on_run flags w.
  destruct (primary w =? secondary w)%string; run_exec; run_done;
    unfold listen_failures, fatal_logged; collect_norm; intros Hin;
    try (now destruct Hin);
    destruct Hin as [Hin|[]]; injection Hin as <- <-;
    repeat split; first [ exists []; reflexivity | eexists [_]; reflexivity ].
Qed.

(** X22: a run exits with status 1 exactly when a call of [listen] or a
    call of [Start] returned an error, and then there is one such call;
    nothing else (a hooks file that cannot be loaded, a cleanup that
    fails) makes the process fail. *)
Theorem exit_1_has_one_cause (flags : Flags) (w : W) :
  let tr := trace (snd (run flags w)) in
  (fst (run flags w) = Exit 1
   /\ List.length (listen_failures tr) + List.length (start_failures tr) = 1)
  \/ (fst (run flags w) <> Exit 1 /\ listen_failures tr = [] /\ start_failures tr = []).
Proof.
  on_run flags w.
  destruct (primary w =? secondary w)%string; run_exec; run_done;
    unfold listen_failures, start_failures; collect_norm;
    first [ left; split; reflexivity | right; repeat split; discriminate ].
Qed.

End Topology.

(** ** The scenarios, run in the simulated environment *)

(** C1, as the specification states it, fails on two ports: the member for
    the controller is started on the listener of the secondary endpoint. *)
Lemma split_as_specified_fails :
  fst (run Sim.no_flags Sim.two_ports) = Exit 0
  /\ map (fun a => (fst (fst a), address (snd (fst a))))
         (acquired (trace (snd (run Sim.no_flags Sim.two_ports)))) =
       [("tcp://127.0.0.1:9001", "127.0.0.1:9001"); ("tcp://127.0.0.1:9000", "127.0.0.1:9000")]
  /\ map (fun a => (roles (fst a), address (snd a)))
         (started (trace (snd (run Sim.no_flags Sim.two_ports)))) =
       [([Identity; Controller], "127.0.0.1:9001"); ([Identity; Node], "127.0.0.1:9000")]
  /\ ~ split_as_specified Sim.no_flags Sim.two_ports.
Proof.
  split; [vm_compute; reflexivity|]. split; [vm_compute; reflexivity|].
  split; [vm_compute; reflexivity|].
  unfold split_as_specified. intros H.
  destruct H as [_ H]; [vm_compute; discriminate|].
  destruct (H eq_refl) as [(d & l & f & Hs & Ha & Hr) _].
  vm_compute in Hs, Ha.
  destruct Hs as [Hs|[Hs|[]]]; injection Hs as <- <-;
    [|vm_compute in Hr; discriminate Hr].
  destruct Ha as [Ha|[Ha|[]]]; discriminate Ha.
Qed.


(** C8, as the specification states it, fails when the server does not
    start: the process exits with status 1, a listener was acquired, no
    cleanup has run, and the socket file is still there. *)
Lemma cleanup_as_specified_fails :
  fst (run Sim.no_flags Sim.no_server) = Exit 1
  /\ acquired (trace (snd (run Sim.no_flags Sim.no_server))) =
       [("unix://tmp/a.sock", {| network := "unix"; address := "/tmp/a.sock" |},
         func_Remove "/tmp/a.sock")]
  /\ cleanups_run (trace (snd (run Sim.no_flags Sim.no_server))) = []
  /\ Sim.paths (world (snd (run Sim.no_flags Sim.no_server))) = ["/tmp/a.sock"]
  /\ ~ cleanup_as_specified Sim.no_flags Sim.no_server.
Proof.
  split; [vm_compute; reflexivity|]. split; [vm_compute; reflexivity|].
  split; [vm_compute; reflexivity|]. split; [vm_compute; reflexivity|].
  unfold cleanup_as_specified. intros H.
  specialize (H 1%Z eq_refl). vm_compute in H.
  apply Permutation_length in H. discriminate H.
Qed.





Section Scenario.
Context {Hooks W : Type} {world_ops : World Hooks W}.

End Scenario.

(** C1: the amended statement on two ports. *)
Lemma split_topology_witness :
  primary Sim.two_ports <> secondary Sim.two_ports
  /\ (let tr := trace (snd (run Sim.no_flags Sim.two_ports)) in
      map roles (built tr) = [[Identity; Controller]; [Identity; Node]]
      /\ bound tr [Identity; Controller] (secondary Sim.two_ports)
      /\ bound tr [Identity; Node] (primary Sim.two_ports)).
Proof.
  assert (H : primary Sim.two_ports <> secondary Sim.two_ports)
    by (vm_compute; discriminate).
  split; [exact H|].
  destruct (split_topology Sim.no_flags Sim.two_ports H) as (Hb & _ & Hok).
  split; [exact Hb|]. apply Hok. vm_compute. reflexivity.
Defined.

(** C2 on the socket scenario. *)
Lemma combined_topology_witness :
  primary Sim.a_sock = secondary Sim.a_sock
  /\ (let tr := trace (snd (run Sim.no_flags Sim.a_sock)) in
      map roles (built tr) = [all_roles] /\ listen_calls tr = [primary Sim.a_sock]).
Proof.
  assert (H : primary Sim.a_sock = secondary Sim.a_sock) by (vm_compute; reflexivity).
  split; [exact H|].
  destruct (combined_topology Sim.no_flags Sim.a_sock H) as (Hb & Hl & _).
  split; [exact Hb|exact Hl].
Defined.

(** C4 on the endpoint [TCP://]. *)
Lemma parseEndpoint_empty_remainder_witness :
  recognized "TCP://" = true /\ remainder "TCP://" = Some ""
  /\ parseEndpoint "TCP://" =
       Some ("", "", Some (Errorf "Invalid endpoint: %v" [a_string "TCP://"])).
Proof.
  split; [vm_compute; reflexivity|]. split; [vm_compute; reflexivity|].
  apply (parseEndpoint_empty_remainder "TCP://"); vm_compute; reflexivity.
Defined.

(** C5 on a bare path. *)
Lemma parseEndpoint_unrecognized_witness :
  recognized "/var/run/csi.sock" = false
  /\ parseEndpoint "/var/run/csi.sock" = Some ("unix", "/var/run/csi.sock", None).
Proof.
  split; [vm_compute; reflexivity|].
  apply (parseEndpoint_unrecognized "/var/run/csi.sock"). vm_compute. reflexivity.
Defined.


(** C7 on a stale socket file: it is removed and the socket is bound. *)
Lemma listen_removes_stale_socket_witness :
  parseEndpoint "unix://tmp/a.sock" = Some ("unix", "tmp/a.sock", None)
  /\ fst (listen_body "unix://tmp/a.sock" (boot_proc Sim.stale_socket)) =
       Done (Some {| network := "unix"; address := "/tmp/a.sock" |},
             Some (func_Remove "/tmp/a.sock"), None).
Proof.
  assert (H : parseEndpoint "unix://tmp/a.sock" = Some ("unix", "tmp/a.sock", None))
    by (vm_compute; reflexivity).
  split; [exact H|].
  destruct (listen_removes_stale_socket "unix://tmp/a.sock" "tmp/a.sock"
              (boot_proc Sim.stale_socket) H) as (_ & _ & Hgo).
  rewrite Hgo; [vm_compute; reflexivity|left; vm_compute; reflexivity].
Defined.

(** C8: the amended statement on a normal run. *)
Lemma cleanup_at_exit_witness :
  fst (run Sim.no_flags Sim.stale_socket) = Exit 0
  /\ cleanups_run (trace (snd (run Sim.no_flags Sim.stale_socket))) =
       [func_Remove "/tmp/a.sock"].
Proof.
  assert (H : fst (run Sim.no_flags Sim.stale_socket) = Exit 0) by (vm_compute; reflexivity).
  split; [exact H|].
  rewrite (cleanup_at_exit Sim.no_flags Sim.stale_socket 0 H). vm_compute. reflexivity.
Defined.

(** C9 on a hooks file that the decoder refuses. *)
Lemma hooks_failure_is_not_fatal_witness :
  hooks_file Sim.hooks_flags <> ""
  /\ hooks_error (hooks_file Sim.hooks_flags) Sim.bad_hooks =
       Some (external_error "yaml: unmarshal errors" false)
  /\ services (trace (snd (run Sim.hooks_flags Sim.bad_hooks))) = [config_of Sim.hooks_flags]
  /\ listen_calls (trace (snd (run Sim.hooks_flags Sim.bad_hooks))) <> [].
Proof.
  assert (Hf : hooks_file Sim.hooks_flags <> "") by (vm_compute; discriminate).
  assert (He : hooks_error (hooks_file Sim.hooks_flags) Sim.bad_hooks =
               Some (external_error "yaml: unmarshal errors" false))
    by (vm_compute; reflexivity).
  split; [exact Hf|]. split; [exact He|].
  destruct (hooks_failure_is_not_fatal Sim.hooks_flags Sim.bad_hooks _ Hf He)
    as (_ & _ & Hs & _ & _ & Hl).
  split; [exact Hs|exact Hl].
Defined.

(** C10 on two ports, stopped by SIGINT. *)
Lemma stop_on_signal_witness :
  In SIGINT (signals_received (trace (snd (run Sim.no_flags Sim.two_ports))))
  /\ fst (run Sim.no_flags Sim.two_ports) = Exit 0
  /\ stopped (since_signal (trace (snd (run Sim.no_flags Sim.two_ports)))) =
       map fst (started (trace (snd (run Sim.no_flags Sim.two_ports)))).
Proof.
  assert (H : In SIGINT (signals_received (trace (snd (run Sim.no_flags Sim.two_ports)))))
    by (vm_compute; left; reflexivity).
  split; [exact H|].
  destruct (stop_on_signal Sim.no_flags Sim.two_ports SIGINT H) as (He & _ & Hs & _).
  split; [exact He|exact Hs].
Defined.

(** ** Further runs in the simulated environment *)

(** In the simulated environment file operations leave the environment
    variables alone. *)
Lemma sim_keeps_env (key : string) : @keeps_env Sim.Hooks Sim.world _ key.
Proof.
  intros w. repeat split.
  - intros name. cbn. unfold Sim.open. destruct (Sim.lookup name (Sim.documents w)); reflexivity.
  - intros fr. cbn. unfold Sim.read_all.
    destruct (Sim.lookup (file_name fr) (Sim.documents w)); reflexivity.
Qed.

(** X2 on an endpoint with two separators: it is cut at the first. *)
Lemma parseEndpoint_round_trip_witness :
  parseEndpoint "tcp://a://b" = Some ("tcp", "a://b", None)
  /\ "tcp://a://b" = ("tcp" ++ "://" ++ "a://b")%string
  /\ (ToLower "tcp" = "unix" \/ ToLower "tcp" = "tcp").
Proof.
  assert (H : parseEndpoint "tcp://a://b" = Some ("tcp", "a://b", None))
    by (vm_compute; reflexivity).
  split; [exact H|].
  destruct (parseEndpoint_round_trip _ _ _ H) as [(_ & E & _ & _ & L)|(R & _)];
    [split; [exact E|exact L]|vm_compute in R; discriminate R].
Defined.

(** X3 on the endpoint [unix://]. *)
Lemma parseEndpoint_only_error_witness :
  parseEndpoint "unix://" =
    Some ("", "", Some (Errorf "Invalid endpoint: %v" [a_string "unix://"]))
  /\ remainder "unix://" = Some "".
Proof.
  assert (H : parseEndpoint "unix://" =
              Some ("", "", Some (Errorf "Invalid endpoint: %v" [a_string "unix://"])))
    by (vm_compute; reflexivity).
  split; [exact H|].
  destruct (parseEndpoint_only_error _ _ _ _ H) as (_ & _ & _ & _ & R & _). exact R.
Defined.

(** X4 on the scheme [Unix]. *)
Lemma parseEndpoint_keeps_the_case_witness :
  lower_bytes "Unix" = "unix"
  /\ parseEndpoint "Unix:///tmp/a.sock" = Some ("Unix", "/tmp/a.sock", None)
  /\ kind_of "Unix" = None.
Proof.
  assert (H : lower_bytes "Unix" = "unix") by (vm_compute; reflexivity).
  split; [exact H|].
  destruct (parseEndpoint_keeps_the_case "Unix" "/tmp/a.sock" (or_introl H)) as [P K];
    [discriminate|].
  split; [exact P|]. apply K; discriminate.
Defined.

(** X6 on a port. *)
Lemma listen_other_protocol_witness :
  parseEndpoint "tcp://127.0.0.1:9000" = Some ("tcp", "127.0.0.1:9000", None)
  /\ "tcp" <> "unix"
  /\ listen_body "tcp://127.0.0.1:9000" (boot_proc Sim.two_ports) =
       (Done (Some {| network := "tcp"; address := "127.0.0.1:9000" |}, Some func_nop, None),
        {| world := Sim.set_busy ["127.0.0.1:9000"] Sim.two_ports; deferred := [];
           trace := [ev_Listen "tcp" "127.0.0.1:9000" None] |}).
Proof.
  assert (H : parseEndpoint "tcp://127.0.0.1:9000" = Some ("tcp", "127.0.0.1:9000", None))
    by (vm_compute; reflexivity).
  assert (N : "tcp" <> "unix") by discriminate.
  split; [exact H|]. split; [exact N|].
  rewrite (listen_other_protocol _ _ _ (boot_proc Sim.two_ports) H N).
  vm_compute. reflexivity.
Defined.

(** X7 on the endpoint [tcp://]. *)
Lemma invalid_endpoint_is_fatal_witness :
  recognized (secondary Sim.no_address) = true
  /\ remainder (secondary Sim.no_address) = Some ""
  /\ fst (run Sim.no_flags Sim.no_address) = Exit 1
  /\ net_listens (trace (snd (run Sim.no_flags Sim.no_address))) = [].
Proof.
  assert (R : recognized (secondary Sim.no_address) = true) by (vm_compute; reflexivity).
  assert (E : remainder (secondary Sim.no_address) = Some "") by (vm_compute; reflexivity).
  split; [exact R|]. split; [exact E|].
  destruct (invalid_endpoint_is_fatal Sim.no_flags Sim.no_address R E)
    as (Hx & _ & _ & Hn & _).
  split; [exact Hx|exact Hn].
Defined.

(** X12 with the variable set to [true]. *)
Lemma credentials_only_when_true_witness :
  keeps_env "CSI_ENABLE_CREDS"
  /\ Getenv "CSI_ENABLE_CREDS" Sim.with_creds = "true"
  /\ creds_set (trace (snd (run Sim.no_flags Sim.with_creds))) =
       built (trace (snd (run Sim.no_flags Sim.with_creds)))
  /\ map roles (creds_set (trace (snd (run Sim.no_flags Sim.with_creds)))) = [all_roles].
Proof.
  split; [apply sim_keeps_env|]. split; [vm_compute; reflexivity|].
  destruct (credentials_only_when_true Sim.no_flags Sim.with_creds
              (sim_keeps_env "CSI_ENABLE_CREDS")) as [Hc _].
  split; [exact Hc|]. vm_compute. reflexivity.
Defined.

(** X14 on two endpoints of which the second is refused: the member for
    the controller was started, and is not stopped. *)
Lemma startup_failure_stops_nothing_witness :
  fst (run Sim.no_flags Sim.node_without_address) = Exit 1
  /\ map roles (map fst (started (trace (snd (run Sim.no_flags Sim.node_without_address))))) =
       [[Identity; Controller]]
  /\ stopped (trace (snd (run Sim.no_flags Sim.node_without_address))) = [].
Proof.
  assert (H : fst (run Sim.no_flags Sim.node_without_address) = Exit 1)
    by (vm_compute; reflexivity).
  split; [exact H|]. split; [vm_compute; reflexivity|].
  destruct (startup_failure_stops_nothing Sim.no_flags Sim.node_without_address H) as [Hs _].
  exact Hs.
Defined.

(** X15 on a process that is sent no signal it waits for. *)
Lemma waits_until_signalled_witness :
  fst (run Sim.no_flags Sim.no_signal) = Blocked
  /\ stopped (trace (snd (run Sim.no_flags Sim.no_signal))) = []
  /\ cleanups_run (trace (snd (run Sim.no_flags Sim.no_signal))) = [].
Proof.
  assert (H : fst (run Sim.no_flags Sim.no_signal) = Blocked) by (vm_compute; reflexivity).
  split; [exact H|].
  destruct (waits_until_signalled Sim.no_flags Sim.no_signal H) as (_ & _ & Hs & Hc).
  split; [exact Hs|exact Hc].
Defined.

(** X16 on two endpoints. *)
Lemma split_startup_order_witness :
  primary Sim.node_without_address <> secondary Sim.node_without_address
  /\ listen_calls (trace (snd (run Sim.no_flags Sim.node_without_address))) =
       [secondary Sim.node_without_address; primary Sim.node_without_address].
Proof.
  assert (H : primary Sim.node_without_address <> secondary Sim.node_without_address)
    by (vm_compute; discriminate).
  split; [exact H|].
  destruct (split_startup_order Sim.no_flags Sim.node_without_address H)
    as [(_ & Hs & _)|[Hl _]]; [vm_compute in Hs; discriminate Hs|exact Hl].
Defined.

(** X17 on a socket. *)
Lemma shutdown_order_witness :
  fst (run Sim.no_flags Sim.stale_socket) = Exit 0
  /\ removed (since_signal (trace (snd (run Sim.no_flags Sim.stale_socket)))) = ["/tmp/a.sock"]
  /\ stopped (from_first_cleanup (trace (snd (run Sim.no_flags Sim.stale_socket)))) = [].
Proof.
  assert (H : fst (run Sim.no_flags Sim.stale_socket) = Exit 0) by (vm_compute; reflexivity).
  split; [exact H|].
  destruct (shutdown_order Sim.no_flags Sim.stale_socket H) as (_ & Hs & Hr).
  split; [rewrite Hr; vm_compute; reflexivity|exact Hs].
Defined.

(** X18 on a process that was given no endpoint: it listens on [/]. *)
Lemma bare_path_gets_a_slash_witness :
  recognized (primary Sim.unset) = false
  /\ primary Sim.unset = secondary Sim.unset
  /\ fst (run Sim.no_flags Sim.unset) = Exit 0
  /\ removed (trace (snd (run Sim.no_flags Sim.unset))) = ["/"; "/"]
  /\ net_listens (trace (snd (run Sim.no_flags Sim.unset))) = [("unix", "/", None)].
Proof.
  assert (R : recognized (primary Sim.unset) = false) by (vm_compute; reflexivity).
  assert (H : primary Sim.unset = secondary Sim.unset) by (vm_compute; reflexivity).
  split; [exact R|]. split; [exact H|]. split; [vm_compute; reflexivity|].
  destruct (bare_path_gets_a_slash Sim.no_flags Sim.unset R H) as [Hr _].
  split; [rewrite Hr; vm_compute; reflexivity|vm_compute; reflexivity].
Defined.

(** X19 on the endpoints [unix://tmp/a.sock] and [tmp/a.sock]. *)
Lemma same_socket_is_bound_twice_witness :
  primary Sim.one_socket_twice <> secondary Sim.one_socket_twice
  /\ parseEndpoint (primary Sim.one_socket_twice) = Some ("unix", "tmp/a.sock", None)
  /\ parseEndpoint (secondary Sim.one_socket_twice) = Some ("unix", "tmp/a.sock", None)
  /\ fst (run Sim.no_flags Sim.one_socket_twice) = Exit 0
  /\ removed (trace (snd (run Sim.no_flags Sim.one_socket_twice))) =
       ["/tmp/a.sock"; "/tmp/a.sock"; "/tmp/a.sock"; "/tmp/a.sock"].
Proof.
  assert (H : primary Sim.one_socket_twice <> secondary Sim.one_socket_twice)
    by (vm_compute; discriminate).
  assert (P1 : parseEndpoint (primary Sim.one_socket_twice) =
               Some ("unix", "tmp/a.sock", None))
    by (vm_compute; reflexivity).
  assert (P2 : parseEndpoint (secondary Sim.one_socket_twice) =
               Some ("unix", "tmp/a.sock", None))
    by (vm_compute; reflexivity).
  assert (X : fst (run Sim.no_flags Sim.one_socket_twice) = Exit 0)
    by (vm_compute; reflexivity).
  split; [exact H|]. split; [exact P1|]. split; [exact P2|]. split; [exact X|].
  destruct (same_socket_is_bound_twice Sim.no_flags Sim.one_socket_twice _ H P1 P2 X)
    as (_ & Hr & _).
  exact Hr.
Defined.

(** X20 on a socket on which the server does not start. *)
Lemma start_failure_is_fatal_witness :
  In (NewCSIDriver (CSIDriverServers (service_New (config_of Sim.no_flags))
                                     (service_New (config_of Sim.no_flags))
                                     (service_New (config_of Sim.no_flags))),
      external_error "failed to serve" false)
     (start_failures (trace (snd (run Sim.no_flags Sim.no_server))))
  /\ fst (run Sim.no_flags Sim.no_server) = Exit 1
  /\ fatal_logged (trace (snd (run Sim.no_flags Sim.no_server))) =
       [("Error: Unable to start mock CSI server: %v\n"%string,
         [an_error (external_error "failed to serve" false)])].
Proof.
  assert (H : In (NewCSIDriver (CSIDriverServers (service_New (config_of Sim.no_flags))
                                     (service_New (config_of Sim.no_flags))
                                     (service_New (config_of Sim.no_flags))),
                  external_error "failed to serve" false)
                 (start_failures (trace (snd (run Sim.no_flags Sim.no_server)))))
    by (vm_compute; left; reflexivity).
  split; [exact H|].
  destruct (start_failure_is_fatal Sim.no_flags Sim.no_server _ _ H) as (Hx & _ & Hf & _).
  split; [exact Hx|exact Hf].
Defined.

(** X21 on an endpoint whose prefix is written in upper case. *)
Lemma listen_failure_is_fatal_witness :
  In ("UNIX:///tmp/a.sock"%string,
      external_error "listen UNIX /tmp/a.sock: unknown network UNIX" false)
     (listen_failures (trace (snd (run Sim.no_flags Sim.upper_case))))
  /\ fst (run Sim.no_flags Sim.upper_case) = Exit 1
  /\ listen_calls (trace (snd (run Sim.no_flags Sim.upper_case))) =
       ["UNIX:///tmp/a.sock"%string].
Proof.
  assert (H : In ("UNIX:///tmp/a.sock"%string,
                  external_error "listen UNIX /tmp/a.sock: unknown network UNIX" false)
                 (listen_failures (trace (snd (run Sim.no_flags Sim.upper_case)))))
    by (vm_compute; left; reflexivity).
  split; [exact H|].
  destruct (listen_failure_is_fatal Sim.no_flags Sim.upper_case _ _ H) as (Hx & _ & _ & _).
  split; [exact Hx|]. vm_compute. reflexivity.
Defined.
